(** * Minerva, SETR-PUP pipeline notebook: padding transform and F3 data module

    Shallow embedding of the two classes defined in
    [docs/notebooks/4.minerva_setr_pup_pipeline.ipynb]:

    - [Padding] (cell 3), the reflective-pad transform, together with the
      NumPy / PyTorch array operations its [__call__] goes through;
    - [F3DataModule] (cell 4), the Lightning data module with its [setup]
      method and its four loader accessors.

    Python exceptions are values of [exn]; a call that may raise returns a
    [result].  The spec names the failures abstractly; in the notebook they
    are the built-in exceptions: ShapeError and ConfigurationError are
    [ValueError], StateError is [KeyError]. *)

From stdpp Require Import gmap strings list fin_maps.
From Stdlib Require Import ZArith QArith_base Lia.

Local Open Scope Z_scope.

(** ** Exceptions and results *)

Inductive exn : Type :=
  | ValueError
  | KeyError
  | TypeError
  | FileNotFoundError
  | AlignmentError.

Inductive result (T : Type) : Type :=
  | Ok (v : T)
  | Raise (e : exn).
Arguments Ok {T} v.
Arguments Raise {T} e.

(** Sequencing stops at the first exception ([x ← r; k] below). *)
Global Instance result_ret : MRet result := fun T v => Ok v.
Global Instance result_bind : MBind result := fun T U k r =>
  match r with
  | Ok v => k v
  | Raise e => Raise e
  end.

(** ** NumPy arrays

    An n-dimensional array is its [ndim], its [shape] tuple and its items,
    nested [ndim] deep (row-major: the outermost list runs over axis 0).
    The shape is kept next to the items, as in NumPy, so that an array
    with an empty axis, say of shape (0, 5), still knows its other
    extents. *)

Fixpoint nest (A : Type) (n : nat) : Type :=
  match n with
  | O => A
  | S n' => list (nest A n')
  end.

Record ndarray (A : Type) : Type := NdArray {
  ndim : nat;
  shape : list nat;
  items : nest A ndim
}.
Arguments NdArray {A} ndim shape items.
Arguments ndim {A} _.
Arguments shape {A} _.
Arguments items {A} _.

(** The array invariant: [shape] has [ndim] entries and the nesting has
    exactly these extents. *)
Fixpoint conforms {A : Type} (n : nat) (s : list nat) : nest A n → bool :=
  match n return nest A n → bool with
  | O => fun _ => match s with [] => true | _ :: _ => false end
  | S n' => fun l =>
      match s with
      | [] => false
      | d :: s' => Nat.eqb (length l) d && forallb (conforms n' s') l
      end
  end.

Definition well_formedb {A : Type} (x : ndarray A) : bool :=
  Nat.eqb (length (shape x)) (ndim x) && conforms (ndim x) (shape x) (items x).

Definition well_formed {A : Type} (x : ndarray A) : Prop :=
  well_formedb x = true.

(** [x[i0, i1, ...]] with a full tuple of non-negative indices. *)
Fixpoint getitem {A : Type} (n : nat) : nest A n → list nat → option A :=
  match n return nest A n → list nat → option A with
  | O => fun a idx => match idx with [] => Some a | _ :: _ => None end
  | S n' => fun l idx =>
      match idx with
      | [] => None
      | i :: idx' =>
          match l !! i with
          | Some y => getitem n' y idx'
          | None => None
          end
      end
  end.

Definition at_index {A : Type} (x : ndarray A) (idx : list nat) : option A :=
  getitem (ndim x) (items x) idx.

(** *** [np.pad(array, pad_width, mode="reflect")]

    NumPy copies the array into the centre of the enlarged one and then
    fills the pad areas axis by axis.  For an axis of length [n ≥ 2] the
    pad areas hold the array mirrored on its first and last item, over and
    over if the pad is longer than [n - 1]: position [i], counted from the
    start of the original data, holds the item at [reflect_index n i].  An
    axis of length 1 is extended with its only item.  An empty axis cannot
    be extended: NumPy raises [ValueError]. *)

Definition reflect_index (n : nat) (i : Z) : nat :=
  if (n <=? 1)%nat then O
  else
    let period := 2 * (Z.of_nat n - 1) in
    let m := i mod period in
    Z.to_nat (if m <? Z.of_nat n then m else period - m).

Definition pad_axis {X : Type} (before after : nat) (l : list X) : list X :=
  match l with
  | [] => []
  | a :: _ =>
      let n := length l in
      ((fun k => nth (reflect_index n (Z.of_nat k - Z.of_nat before)) l a)
         <$> seq 0 before)
      ++ l
      ++ ((fun k => nth (reflect_index n (Z.of_nat n + Z.of_nat k)) l a)
            <$> seq 0 after)
  end.

Fixpoint pad_items {A : Type} (n : nat) (pw : list (nat * nat)) : nest A n → nest A n :=
  match n return nest A n → nest A n with
  | O => fun a => a
  | S n' => fun l =>
      match pw with
      | [] => l
      | (before, after) :: pw' => pad_items n' pw' <$> pad_axis before after l
      end
  end.

(** [pad_width] is broadcast to one (before, after) pair per axis: a
    sequence of [ndim] pairs is taken as it is, a single pair is used for
    every axis, anything else does not broadcast.  Negative widths are
    refused. *)
Definition as_pairs (pad_width : list (Z * Z)) (nd : nat) : result (list (nat * nat)) :=
  if existsb (fun p => (p.1 <? 0) || (p.2 <? 0)) pad_width then Raise ValueError
  else
    let pairs := (fun p => (Z.to_nat p.1, Z.to_nat p.2)) <$> pad_width in
    if Nat.eqb (length pairs) nd then Ok pairs
    else
      match pairs with
      | [p] => Ok (replicate nd p)
      | _ => Raise ValueError
      end.

Definition extends_empty_axis (s : list nat) (pw : list (nat * nat)) : bool :=
  existsb (fun dp => Nat.eqb dp.1 0 && negb (Nat.eqb dp.2.1 0 && Nat.eqb dp.2.2 0))
          (zip s pw).

Definition padded_shape (s : list nat) (pw : list (nat * nat)) : list nat :=
  zip_with (fun d p => (p.1 + d + p.2)%nat) s pw.

Definition np_pad_reflect {A : Type} (x : ndarray A) (pad_width : list (Z * Z))
  : result (ndarray A) :=
  pw ← as_pairs pad_width (ndim x);
  if extends_empty_axis (shape x) pw then Raise ValueError
  else Ok (NdArray (ndim x) (padded_shape (shape x) pw) (pad_items (ndim x) pw (items x))).

(** *** [np.expand_dims(a, axis)] for a non-negative [axis]

    An axis beyond the new rank raises [AxisError], a [ValueError]. *)

Fixpoint expand_items {A : Type} (n axis : nat) : nest A n → nest A (S n) :=
  match axis, n return nest A n → nest A (S n) with
  | O, _ => fun y => [y]
  | S k, S n' => fun l => expand_items n' k <$> l
  | S _, O => fun a => [a]
  end.

Definition np_expand_dims {A : Type} (x : ndarray A) (axis : nat) : result (ndarray A) :=
  if (axis <=? ndim x)%nat then
    Ok (NdArray (S (ndim x))
                (take axis (shape x) ++ 1%nat :: drop axis (shape x))
                (expand_items (ndim x) axis (items x)))
  else Raise ValueError.

(** *** [np.transpose(a, (2, 0, 1))]

    The only permutation the notebook uses: the last axis of a
    3-dimensional array becomes the first one,
    [out[c, i, j] = a[i, j, c]].  On any other rank the axes do not match
    the array and NumPy raises [ValueError]. *)

Definition column {X : Type} (c : nat) (rows : list (list X)) : list X :=
  flat_map (fun r => take 1 (drop c r)) rows.

Definition swap_outer {X : Type} (ncols : nat) (rows : list (list X)) : list (list X) :=
  (fun c => column c rows) <$> seq 0 ncols.

Definition np_transpose_201 {A : Type} (a : ndarray A) : result (ndarray A) :=
  match a with
  | NdArray 3 [h; w; c] cells =>
      Ok (NdArray 3 [c; h; w] (swap_outer c (swap_outer c <$> cells)))
  | _ => Raise ValueError
  end.

(** *** [torch.from_numpy(a).float()]: same shape, every item converted *)

Fixpoint map_items {A B : Type} (f : A → B) (n : nat) : nest A n → nest B n :=
  match n return nest A n → nest B n with
  | O => f
  | S n' => fun l => map_items f n' <$> l
  end.

Definition map_array {A B : Type} (f : A → B) (x : ndarray A) : ndarray B :=
  NdArray (ndim x) (shape x) (map_items f (ndim x) (items x)).

(** ** [class Padding(_Transform)] *)

Record Padding : Type := {
  target_h_size : Z;
  target_w_size : Z
}.

(** [h, w = x.shape[:2]] *)
Definition unpack_pair (t : list nat) : result (nat * nat) :=
  match t with
  | [h; w] => Ok (h, w)
  | _ => Raise ValueError
  end.

Section PaddingCall.
(** [A] is the dtype of the input array, [F] is torch's float32 and
    [float] the conversion [Tensor.float] applies to each item; the
    dtype is one [torch.from_numpy] accepts. *)
Context {A F : Type} (float : A → F).

Definition Padding_call (self : Padding) (x : ndarray A) : result (ndarray F) :=
  '(h, w) ← unpack_pair (take 2 (shape x));
  let pad_h := Z.max 0 (target_h_size self - Z.of_nat h) in
  let pad_w := Z.max 0 (target_w_size self - Z.of_nat w) in
  padded ←
    (if Nat.eqb (length (shape x)) 2 then
       padded ← np_pad_reflect x [(0, pad_h); (0, pad_w)];
       padded ← np_expand_dims padded 2;
       Ok (map_array float padded)
     else
       padded ← np_pad_reflect x [(0, pad_h); (0, pad_w); (0, 0)];
       Ok (map_array float padded));
  np_transpose_201 padded.
End PaddingCall.

(** The two spatial extents of a channel-first tensor. *)
Definition spatial_size {A : Type} (t : ndarray A) : list nat := drop 1 (shape t).

(** [max(0, target - d)] as a number of items. *)
Definition pad_amount (target : Z) (d : nat) : nat :=
  Z.to_nat (Z.max 0 (target - Z.of_nat d)).

(** An axis that has to be extended is empty. *)
Definition extends_empty (self : Padding) (h w : nat) : Prop :=
  (h = 0%nat ∧ 0 < target_h_size self) ∨ (w = 0%nat ∧ 0 < target_w_size self).

(** The extent of the channel axis of the result: the last axis of a
    3-dimensional input, 1 for a 2-dimensional one. *)
Definition channels {A : Type} (x : ndarray A) : nat :=
  match shape x with
  | [_; _; c] => c
  | _ => 1%nat
  end.

(** [transform = Padding(256, 704)] *)
Definition transform : Padding :=
  {| target_h_size := 256; target_w_size := 704 |}.

(** Sample arrays of integer dtype; every integer in them is a float32
    value, so the conversion is the embedding of the integers into the
    rationals. *)
Definition exact_float : Z → Q := inject_Z.

Definition scalar_7 : ndarray Z := NdArray 0 [] 7.
Definition vector_3 : ndarray Z := NdArray 1 [3%nat] [1; 2; 3].
Definition gray_2x3 : ndarray Z := NdArray 2 [2%nat; 3%nat] [[1; 2; 3]; [4; 5; 6]].
Definition gray_1x3 : ndarray Z := NdArray 2 [1%nat; 3%nat] [[1; 2; 3]].
Definition gray_200x600 : ndarray Z :=
  NdArray 2 [200%nat; 600%nat] (replicate 200 (replicate 600 0)).
Definition gray_1x704 : ndarray Z :=
  NdArray 2 [1%nat; 704%nat] [replicate 704 0].
Definition empty_0x5 : ndarray Z := NdArray 2 [0%nat; 5%nat] [].
Definition rgb_2x2 : ndarray Z :=
  NdArray 3 [2%nat; 2%nat; 3%nat]
    [[[1; 2; 3]; [4; 5; 6]]; [[7; 8; 9]; [10; 11; 12]]].

(** [Padding(3, 5)(gray_2x3)] and [Padding(3, 3)(gray_1x3)], as NumPy
    computes them. *)
Definition gray_2x3_padded : ndarray Q :=
  map_array exact_float
    (NdArray 3 [1%nat; 3%nat; 5%nat]
       [[[1; 2; 3; 2; 1]; [4; 5; 6; 5; 4]; [1; 2; 3; 2; 1]]]).
Definition gray_1x3_padded : ndarray Q :=
  map_array exact_float
    (NdArray 3 [1%nat; 3%nat; 3%nat] [[[1; 2; 3]; [1; 2; 3]; [1; 2; 3]]]).

(** ** [class F3DataModule(L.LightningDataModule)]

    [pathlib.Path] is modelled by the path string and [p / name] by joining
    with a slash. *)

Definition Path : Type := string.

Definition path_div (p : Path) (name : string) : Path := p +:+ "/" +:+ name.
Infix "//" := path_div (at level 40, left associativity).

(** Python objects are referred to by their identity: a dataset, once
    constructed, lives in the object store and [self.datasets] maps a
    key to the identity of the object stored under it. *)
Definition ref : Type := nat.

Record F3DataModule : Type := {
  train_path : Path;
  annotations_path : Path;
  transforms : option Padding;
  batch_size : Z;
  num_workers : option Z;
  datasets : gmap string ref
}.

(** [F3DataModule.__init__]; [cpu_count] is what [os.cpu_count()] returns
    on the host ([None] when it cannot tell). *)
Definition F3DataModule_init (cpu_count : option Z)
    (train_path annotations_path : string) (transforms : option Padding)
    (batch_size : Z) (num_workers : option Z) : F3DataModule :=
  {| train_path := train_path;
     annotations_path := annotations_path;
     transforms := transforms;
     batch_size := batch_size;
     num_workers :=
       match num_workers with
       | Some n => Some n
       | None => cpu_count
       end;
     datasets := ∅ |}.

(** The arguments of a call [torch.utils.data.DataLoader(dataset,
    batch_size=..., num_workers=..., shuffle=...)].  With [shuffle=False]
    torch draws the samples in dataset order, with [shuffle=True] in a
    fresh random order every epoch. *)
Record LoaderArgs : Type := {
  dl_dataset : ref;
  dl_batch_size : Z;
  dl_num_workers : option Z;
  dl_shuffle : bool
}.

Section DataModule.
(** The readers and the dataset class come from the [minerva] package;
    their constructors are taken as they are called here: each returns
    the new object or raises. *)
Context {Reader Dataset : Type}.
Context (TiffReader PNGReader : Path → result Reader).
Context (SupervisedReconstructionDataset :
           list Reader → option Padding → result Dataset).

(** The mutable state a method runs in: the module object [self] and the
    store of dataset objects, indexed by identity. *)
Record World : Type := {
  self : F3DataModule;
  objects : list Dataset
}.

(** A method body: it runs in a world and ends, with a value or an
    exception, in a world. *)
Definition M (T : Type) : Type := World → result T * World.

Global Instance M_ret : MRet M := fun T v w => (Ok v, w).
Global Instance M_bind : MBind M := fun T U k m w =>
  match m w with
  | (Ok v, w') => k v w'
  | (Raise e, w') => (Raise e, w')
  end.

Definition raise {T : Type} (e : exn) : M T := fun w => (Raise e, w).

Definition get_self : M F3DataModule := fun w => (Ok (self w), w).

(** Evaluates a constructor call and puts the new object in the store. *)
Definition new (r : result Dataset) : M ref := fun w =>
  match r with
  | Ok d => (Ok (length (objects w)),
             {| self := self w; objects := objects w ++ [d] |})
  | Raise e => (Raise e, w)
  end.

(** A constructor call whose object is only passed on (the readers). *)
Definition call {T : Type} (r : result T) : M T := fun w => (r, w).

(** [self.datasets[key] = d] *)
Definition datasets_setitem (key : string) (d : ref) : M unit := fun w =>
  (Ok tt,
   {| self :=
        {| train_path := train_path (self w);
           annotations_path := annotations_path (self w);
           transforms := transforms (self w);
           batch_size := batch_size (self w);
           num_workers := num_workers (self w);
           datasets := <[key := d]> (datasets (self w)) |};
      objects := objects w |}).

(** [self.datasets[key]] *)
Definition datasets_getitem (key : string) : M ref := fun w =>
  match datasets (self w) !! key with
  | Some d => (Ok d, w)
  | None => (Raise KeyError, w)
  end.

(** [stage] is [None] (the default) or a string. *)
Definition setup (stage : option string) : M unit :=
  this ← get_self;
  if decide (stage = Some "fit") then
    train_img_reader ← call (TiffReader (train_path this // "train"));
    train_label_reader ← call (PNGReader (annotations_path this // "train"));
    train_dataset ← new (SupervisedReconstructionDataset
                           [train_img_reader; train_label_reader]
                           (transforms this));
    val_img_reader ← call (TiffReader (train_path this // "val"));
    val_label_reader ← call (PNGReader (annotations_path this // "val"));
    val_dataset ← new (SupervisedReconstructionDataset
                         [val_img_reader; val_label_reader]
                         (transforms this));
    datasets_setitem "train" train_dataset;;
    datasets_setitem "val" val_dataset
  else if decide (stage = Some "test" ∨ stage = Some "predict") then
    test_img_reader ← call (TiffReader (train_path this // "test"));
    test_label_reader ← call (PNGReader (annotations_path this // "test"));
    test_dataset ← new (SupervisedReconstructionDataset
                          [test_img_reader; test_label_reader]
                          (transforms this));
    datasets_setitem "test" test_dataset;;
    datasets_setitem "predict" test_dataset
  else raise ValueError.

(** [DataLoader] is torch's class; its constructor checks its arguments
    and, like the constructors above, returns the new loader or raises. *)
Context {Loader : Type} (DataLoader : LoaderArgs → result Loader).

Definition train_dataloader : M Loader :=
  this ← get_self;
  d ← datasets_getitem "train";
  call (DataLoader {| dl_dataset := d; dl_batch_size := batch_size this;
                      dl_num_workers := num_workers this; dl_shuffle := true |}).

Definition val_dataloader : M Loader :=
  this ← get_self;
  d ← datasets_getitem "val";
  call (DataLoader {| dl_dataset := d; dl_batch_size := batch_size this;
                      dl_num_workers := num_workers this; dl_shuffle := false |}).

Definition test_dataloader : M Loader :=
  this ← get_self;
  d ← datasets_getitem "test";
  call (DataLoader {| dl_dataset := d; dl_batch_size := batch_size this;
                      dl_num_workers := num_workers this; dl_shuffle := false |}).

Definition predict_dataloader : M Loader :=
  this ← get_self;
  d ← datasets_getitem "predict";
  call (DataLoader {| dl_dataset := d; dl_batch_size := batch_size this;
                      dl_num_workers := num_workers this; dl_shuffle := false |}).

(** The world after [self.datasets[k1] = d1; self.datasets[k2] = d2] with
    the datasets [new] put in the store. *)
Definition stored (w : World) (new : list Dataset) (k1 : string) (d1 : ref)
    (k2 : string) (d2 : ref) : World :=
  {| self :=
       {| train_path := train_path (self w);
          annotations_path := annotations_path (self w);
          transforms := transforms (self w);
          batch_size := batch_size (self w);
          num_workers := num_workers (self w);
          datasets := <[k2 := d2]> (<[k1 := d1]> (datasets (self w))) |};
     objects := objects w ++ new |}.

(** The dataset a key currently refers to. *)
Definition dataset_of (w : World) (key : string) : option Dataset :=
  match datasets (self w) !! key with
  | Some d => objects w !! d
  | None => None
  end.
End DataModule.

Arguments World : clear implicits.
Arguments M : clear implicits.

(** ** A minerva back end for the examples *)

(** Modelled from the spec: the Reader capability of section 6 (a count
    and per-index access under a root directory), reduced to the root and
    the count; the disk lists the number of samples of each directory and
    opening a directory that is not there raises. *)
Record DirReader : Type := {
  reader_root : Path;
  reader_count : nat
}.

(** Modelled from the spec: the disk behind the readers, a list of
    directories with the number of samples in each. *)
Fixpoint disk_lookup (disk : list (Path * nat)) (root : Path) : option nat :=
  match disk with
  | [] => None
  | (dir, n) :: disk' => if String.eqb dir root then Some n else disk_lookup disk' root
  end.

(** Modelled from the spec: opening a Reader on a root directory. *)
Definition open_reader (disk : list (Path * nat)) (root : Path) : result DirReader :=
  match disk_lookup disk root with
  | Some n => Ok {| reader_root := root; reader_count := n |}
  | None => Raise FileNotFoundError
  end.

(** Modelled from the spec: the PairedDataset of section 4.2, whose
    construction fails with AlignmentError when the readers report unequal
    counts. *)
Record PairedDataset : Type := {
  pd_readers : list DirReader;
  pd_transform : option Padding
}.

(** Modelled from the spec: PairedDataset construction; the spec asks
    for at least one reader and leaves the empty list open, nothing here
    calls it on one. *)
Definition PairedDataset_new (readers : list DirReader) (t : option Padding)
  : result PairedDataset :=
  match readers with
  | [] => Ok {| pd_readers := []; pd_transform := t |}
  | r :: rest =>
      if forallb (fun r' => Nat.eqb (reader_count r') (reader_count r)) rest
      then Ok {| pd_readers := readers; pd_transform := t |}
      else Raise AlignmentError
  end.

(** A [DataLoader] constructor for the examples, with torch's checks of
    the two configured arguments: [num_workers] has to be a non-negative
    integer ([None < 0] is a [TypeError], a negative one a [ValueError])
    and [batch_size] a positive one.  torch checks more than this; the
    theorems are stated for any constructor.  A loader is identified here
    with the arguments it was built from. *)
Definition checked_DataLoader (args : LoaderArgs) : result LoaderArgs :=
  match dl_num_workers args with
  | None => Raise TypeError
  | Some n =>
      if n <? 0 then Raise ValueError
      else if dl_batch_size args <=? 0 then Raise ValueError
      else Ok args
  end.

(** The notebook's configuration and a disk holding the three splits. *)
Definition train_path_cfg : string := "/workspaces/seismic/data/f3_segmentation/images".
Definition annotation_path_cfg : string :=
  "/workspaces/seismic/data/f3_segmentation/annotations".

Definition f3_disk : list (Path * nat) :=
  [ (train_path_cfg // "train", 4%nat); (annotation_path_cfg // "train", 4%nat);
    (train_path_cfg // "val", 2%nat); (annotation_path_cfg // "val", 2%nat);
    (train_path_cfg // "test", 3%nat); (annotation_path_cfg // "test", 3%nat) ].

(** [data_module = F3DataModule(train_path, annotation_path, transform,
    batch_size=1)] on a host with 8 processing units. *)
Definition data_module : F3DataModule :=
  F3DataModule_init (Some 8) train_path_cfg annotation_path_cfg (Some transform) 1 None.

Definition fresh_world : World PairedDataset :=
  {| self := data_module; objects := [] |}.

Definition f3_setup : option string → M PairedDataset unit :=
  setup (open_reader f3_disk) (open_reader f3_disk) PairedDataset_new.

Definition run_in {T : Type} (m : M PairedDataset T) (w : World PairedDataset)
  : World PairedDataset := (m w).2.

(** ** Notions used to state further properties *)

(** Where position [i] of a once-reflected axis of length [n] reads from:
    itself inside the data, its mirror image on the last item beyond. *)
Definition mirror (n i : nat) : nat :=
  if (i <? n)%nat then i else (2 * (n - 1) - i)%nat.

(** The arguments an accessor of module [m] passes for the dataset [d]. *)
Definition loader_args (m : F3DataModule) (d : ref) (shuffle : bool) : LoaderArgs :=
  {| dl_dataset := d; dl_batch_size := batch_size m;
     dl_num_workers := num_workers m; dl_shuffle := shuffle |}.

(** Two module objects with the same constructor-time configuration. *)
Definition same_config (m m' : F3DataModule) : Prop :=
  train_path m = train_path m'
  ∧ annotations_path m = annotations_path m'
  ∧ transforms m = transforms m'
  ∧ batch_size m = batch_size m'
  ∧ num_workers m = num_workers m'.

(** Every key of [self.datasets] refers to an object of the store. *)
Definition store_ok {Dataset : Type} (w : World Dataset) : Prop :=
  ∀ key d, datasets (self w) !! key = Some d → is_Some (objects w !! d).

(** The keys [setup] writes, and the way it writes them: train and val
    together, test and predict as one reference. *)
Definition stage_keys : gset string := {["train"; "val"; "test"; "predict"]}.

Definition paired {Dataset : Type} (w : World Dataset) : Prop :=
  dom (datasets (self w)) ⊆ stage_keys
  ∧ ("train" ∈ dom (datasets (self w)) ↔ "val" ∈ dom (datasets (self w)))
  ∧ datasets (self w) !! "test" = datasets (self w) !! "predict".

(** The world after a series of [setup] calls, each one carried out
    whether the one before returned or raised. *)
Definition run_setups {Reader Dataset : Type}
    (TiffReader PNGReader : Path → result Reader)
    (SupervisedReconstructionDataset : list Reader → option Padding → result Dataset)
    (stages : list (option string)) (w : World Dataset) : World Dataset :=
  foldl (fun w stage =>
           (setup TiffReader PNGReader SupervisedReconstructionDataset stage w).2)
        w stages.

(** A disk on which the val split is missing. *)
Definition disk_without_val : list (Path * nat) :=
  [ (train_path_cfg // "train", 4%nat); (annotation_path_cfg // "train", 4%nat);
    (train_path_cfg // "test", 3%nat); (annotation_path_cfg // "test", 3%nat) ].

(** A colour sample whose width has to be padded and whose height exceeds
    the target, and what [Padding(1, 3)] makes of it. *)
Definition rgb_2x2_padded : ndarray Q :=
  map_array exact_float
    (NdArray 3 [3%nat; 2%nat; 3%nat]
       [[[1; 4; 1]; [7; 10; 7]]; [[2; 5; 2]; [8; 11; 8]]; [[3; 6; 3]; [9; 12; 9]]]).

(** [np.expand_dims(gray_2x3, 2)] *)
Definition gray_2x3x1 : ndarray Z :=
  NdArray 3 [2%nat; 3%nat; 1%nat] [[[1]; [2]; [3]]; [[4]; [5]; [6]]].

(** * Properties of the array operations *)

Lemma Ok_inj {T : Type} (a b : T) : Ok a = Ok b → a = b.
Proof. congruence. Qed.

Section ArrayFacts.
Context {A : Type}.

Lemma forallb_Forall {X : Type} (f : X → bool) (l : list X) :
  forallb f l = true ↔ Forall (fun y => f y = true) l.
Proof.
  induction l as [|y l IH]; simpl.
  - split; [constructor | done].
  - rewrite andb_true_iff, Forall_cons, IH. done.
Qed.

Lemma conforms_cons (n : nat) (d : nat) (s : list nat) (l : list (nest A n)) :
  conforms (S n) (d :: s) l = true ↔
  length l = d ∧ Forall (fun y => conforms n s y = true) l.
Proof.
  simpl. rewrite andb_true_iff, Nat.eqb_eq, forallb_Forall. done.
Qed.

Lemma well_formed_iff (x : ndarray A) :
  well_formed x ↔
  length (shape x) = ndim x ∧ conforms (ndim x) (shape x) (items x) = true.
Proof.
  unfold well_formed, well_formedb. rewrite andb_true_iff, Nat.eqb_eq. done.
Qed.

Lemma well_formed_ndim (x : ndarray A) :
  well_formed x → ndim x = length (shape x).
Proof. intros H. apply well_formed_iff in H as [Hs _]. by rewrite Hs. Qed.

Lemma getitem_cons (n : nat) (l : list (nest A n)) (i : nat) (idx : list nat) :
  getitem (S n) l (i :: idx) = l !! i ≫= (fun y => getitem n y idx).
Proof. reflexivity. Qed.

(** ** Reflective padding along one axis *)

Lemma length_pad_axis {X : Type} (before after : nat) (l : list X) :
  l ≠ [] ∨ (before = 0 ∧ after = 0)%nat →
  length (pad_axis before after l) = (before + length l + after)%nat.
Proof.
  intros H. destruct l as [|a l].
  - destruct H as [H | [-> ->]]; done.
  - unfold pad_axis.
    rewrite !length_app, !length_fmap, !length_seq. simpl. lia.
Qed.

Lemma Forall_pad_axis {X : Type} (P : X → Prop) (before after : nat) (l : list X) :
  Forall P l → Forall P (pad_axis before after l).
Proof.
  intros H. destruct l as [|a l]; [done |].
  assert (Hnth : ∀ i, P (nth i (a :: l) a)).
  { intros i. destruct (nth_in_or_default i (a :: l) a) as [Hin | ->].
    - rewrite Forall_forall in H. apply H, list_elem_of_In, Hin.
    - by inversion H. }
  unfold pad_axis. rewrite !Forall_app. repeat split; [| done |].
  - apply Forall_fmap, Forall_forall. intros k _. apply Hnth.
  - apply Forall_fmap, Forall_forall. intros k _. apply Hnth.
Qed.

Lemma lookup_pad_axis_high {X : Type} (after i : nat) (l : list X) (y : X) :
  l !! i = Some y → pad_axis 0 after l !! i = Some y.
Proof.
  intros H. destruct l as [|a l]; [done |].
  unfold pad_axis. change (seq 0 0) with (@nil nat). rewrite fmap_nil, app_nil_l.
  by apply lookup_app_l_Some.
Qed.

(** ** [np.pad] keeps arrays well formed *)

Lemma length_padded_shape (s : list nat) (pw : list (nat * nat)) :
  length pw = length s → length (padded_shape s pw) = length s.
Proof.
  unfold padded_shape. revert pw.
  induction s as [|d s IH]; intros [|p pw] H; simpl in *; try done.
  f_equal. apply IH. lia.
Qed.

Lemma conforms_pad_items (n : nat) (s : list nat) (pw : list (nat * nat))
    (l : nest A n) :
  length pw = n →
  extends_empty_axis s pw = false →
  conforms n s l = true →
  conforms n (padded_shape s pw) (pad_items n pw l) = true.
Proof.
  revert s pw l. induction n as [|n IH]; intros s pw l Hpw Hext Hc.
  - destruct pw; [| done]. destruct s; done.
  - destruct pw as [|[before after] pw]; [done |].
    destruct s as [|d s]; [done |].
    apply conforms_cons in Hc as [Hlen Hall].
    unfold extends_empty_axis in Hext. simpl in Hext.
    apply orb_false_iff in Hext as [Hd Hext].
    change (padded_shape (d :: s) ((before, after) :: pw))
      with ((before + d + after)%nat :: padded_shape s pw).
    apply conforms_cons. simpl. split.
    + rewrite length_fmap, length_pad_axis; [lia |].
      destruct l as [|y l]; [right | by left].
      simpl in Hlen. subst d. simpl in Hd.
      apply negb_false_iff, andb_true_iff in Hd as [?%Nat.eqb_eq ?%Nat.eqb_eq].
      done.
    + apply Forall_fmap. apply (Forall_pad_axis _ before after) in Hall.
      eapply Forall_impl; [exact Hall |].
      intros y Hy. simpl. apply IH; [simpl in Hpw; lia | exact Hext | exact Hy].
Qed.

Lemma getitem_pad_items_high (n : nat) (pw : list (nat * nat)) (l : nest A n)
    (idx : list nat) (v : A) :
  Forall (fun p => p.1 = 0%nat) pw →
  getitem n l idx = Some v →
  getitem n (pad_items n pw l) idx = Some v.
Proof.
  revert pw l idx. induction n as [|n IH]; intros pw l idx Hpw Hv; [done |].
  destruct pw as [|[before after] pw]; [done |].
  apply Forall_cons in Hpw as [Hb Hpw]. simpl in Hb. subst before.
  destruct idx as [|i idx]; [done |]. simpl in *.
  destruct (l !! i) as [y|] eqn:Hy; [| done].
  rewrite list_lookup_fmap, (lookup_pad_axis_high _ _ _ _ Hy). simpl.
  by apply IH.
Qed.

Lemma getitem_in_range (n : nat) (s : list nat) (l : nest A n) (idx : list nat) :
  conforms n s l = true →
  Forall2 (fun i d => (i < d)%nat) idx s →
  is_Some (getitem n l idx).
Proof.
  revert s l idx. induction n as [|n IH]; intros s l idx Hc Hidx.
  - destruct s; [| done]. inversion Hidx; subst. by eexists.
  - destruct s as [|d s]; [done |].
    apply conforms_cons in Hc as [Hlen Hall].
    inversion Hidx as [|i d' idx' s' Hi Hrest]; subst.
    cbn [getitem]. destruct (l !! i) as [y|] eqn:Hy.
    + eapply IH; [| exact Hrest].
      rewrite Forall_forall in Hall. apply Hall.
      apply list_elem_of_lookup. eauto.
    + apply lookup_ge_None in Hy. destruct (proj1 (Nat.lt_nge _ _) Hi Hy).
Qed.
End ArrayFacts.

Section MoreArrayFacts.
Context {A : Type}.

(** ** [expand_dims] and the item-wise conversion *)

Lemma conforms_expand_items (axis n : nat) (s : list nat) (l : nest A n) :
  (axis ≤ n)%nat →
  length s = n →
  conforms n s l = true →
  conforms (S n) (take axis s ++ 1%nat :: drop axis s) (expand_items n axis l) = true.
Proof.
  revert n s l. induction axis as [|k IH]; intros n s l Hle Hs Hc.
  - rewrite take_0, drop_0.
    destruct n; change (conforms _ s l && true = true); by rewrite Hc.
  - destruct n as [|n]; [lia |]. destruct s as [|d s]; [done |].
    apply conforms_cons in Hc as [Hlen Hall].
    change (take (S k) (d :: s) ++ 1%nat :: drop (S k) (d :: s))
      with (d :: (take k s ++ 1%nat :: drop k s)).
    change (expand_items (S n) (S k) l) with (expand_items n k <$> l).
    apply conforms_cons. split; [by rewrite length_fmap |].
    apply Forall_fmap. eapply Forall_impl; [exact Hall |].
    intros y Hy. simpl. apply IH; [lia | simpl in Hs; lia | exact Hy].
Qed.

Lemma getitem_expand_items_last (n : nat) (l : nest A n) (idx : list nat) :
  length idx = n →
  getitem (S n) (expand_items n n l) (idx ++ [0%nat]) = getitem n l idx.
Proof.
  revert l idx. induction n as [|n IH]; intros l idx Hidx.
  - destruct idx; done.
  - destruct idx as [|i idx]; [done |].
    change (expand_items (S n) (S n) l) with (expand_items n n <$> l).
    rewrite <- app_comm_cons, !getitem_cons, list_lookup_fmap.
    destruct (_ !! i) as [y|]; simpl; [| done].
    apply IH. simpl in Hidx. lia.
Qed.

Lemma conforms_map_items {B : Type} (f : A → B) (n : nat) (s : list nat)
    (l : nest A n) :
  conforms n s l = true → conforms n s (map_items f n l) = true.
Proof.
  revert s l. induction n as [|n IH]; intros s l Hc; [done |].
  destruct s as [|d s]; [done |].
  apply conforms_cons in Hc as [Hlen Hall].
  change (map_items f (S n) l) with (map_items f n <$> l).
  apply conforms_cons. split; [by rewrite length_fmap |].
  apply Forall_fmap. eapply Forall_impl; [exact Hall |].
  intros y Hy. simpl. by apply IH.
Qed.

Lemma getitem_map_items {B : Type} (f : A → B) (n : nat) (l : nest A n)
    (idx : list nat) :
  getitem n (map_items f n l) idx = f <$> getitem n l idx.
Proof.
  revert l idx. induction n as [|n IH]; intros l idx.
  - destruct idx; done.
  - destruct idx as [|i idx]; [done |].
    change (map_items f (S n) l) with (map_items f n <$> l).
    rewrite !getitem_cons, list_lookup_fmap.
    destruct (_ !! i) as [y|]; simpl; [apply IH | done].
Qed.

(** ** Moving the last axis to the front *)

Lemma column_cons {X : Type} (k : nat) (r : list X) (rows : list (list X)) (y : X) :
  r !! k = Some y → column k (r :: rows) = y :: column k rows.
Proof.
  intros Hy. unfold column. simpl.
  apply take_drop_middle in Hy as Hsplit.
  rewrite <- Hsplit at 1.
  rewrite drop_app_length'; [done |].
  rewrite length_take. apply lookup_lt_Some in Hy. lia.
Qed.

Lemma lookup_column {X : Type} (k i : nat) (rows : list (list X)) :
  Forall (fun r => (k < length r)%nat) rows →
  column k rows !! i = rows !! i ≫= (fun r => r !! k).
Proof.
  intros Hall. revert i. induction Hall as [|r rows Hr Hall IH]; intros i; [done |].
  destruct (lookup_lt_is_Some_2 r k Hr) as [y Hy].
  rewrite (column_cons _ _ _ _ Hy).
  destruct i as [|i]; simpl; [by rewrite Hy | apply IH].
Qed.

Lemma length_column {X : Type} (k : nat) (rows : list (list X)) :
  Forall (fun r => (k < length r)%nat) rows →
  length (column k rows) = length rows.
Proof.
  induction 1 as [|r rows Hr Hall IH]; [done |].
  destruct (lookup_lt_is_Some_2 r k Hr) as [y Hy].
  rewrite (column_cons _ _ _ _ Hy). simpl. by rewrite IH.
Qed.

Lemma Forall_column {X : Type} (P : X → Prop) (k : nat) (rows : list (list X)) :
  Forall (Forall P) rows → Forall P (column k rows).
Proof.
  intros Hall. unfold column. apply Forall_flat_map.
  eapply Forall_impl; [exact Hall |].
  intros r Hr. simpl. apply Forall_take, Forall_drop, Hr.
Qed.

Lemma length_swap_outer {X : Type} (n : nat) (rows : list (list X)) :
  length (swap_outer n rows) = n.
Proof. unfold swap_outer. by rewrite length_fmap, length_seq. Qed.

Lemma lookup_swap_outer {X : Type} (n k : nat) (rows : list (list X)) :
  (k < n)%nat → swap_outer n rows !! k = Some (column k rows).
Proof.
  intros Hk. unfold swap_outer.
  by rewrite list_lookup_fmap, lookup_seq_lt.
Qed.

Lemma Forall_swap_outer {X : Type} (P : list X → Prop) (n : nat) (rows : list (list X)) :
  (∀ k, (k < n)%nat → P (column k rows)) → Forall P (swap_outer n rows).
Proof.
  intros H. unfold swap_outer. apply Forall_fmap, Forall_forall.
  intros k Hk%elem_of_seq. simpl. apply H. lia.
Qed.

Lemma conforms_1 (w : nat) (r : list A) :
  conforms 1 [w] r = true ↔ length r = w.
Proof.
  change (conforms 1 [w] r) with (conforms (A:=A) (S 0) [w] r).
  rewrite conforms_cons. split; [by intros [? _] |].
  intros H. split; [done |]. by apply Forall_true.
Qed.
End MoreArrayFacts.

Section Transpose.
Context {A : Type}.

Lemma conforms_3 (h w c : nat) (cells : list (list (list A))) :
  conforms 3 [h; w; c] cells = true ↔
  length cells = h ∧
  Forall (fun row => length row = w ∧ Forall (fun cell => length cell = c) row) cells.
Proof.
  rewrite (conforms_cons 2). apply and_iff_compat_l, Forall_iff. intros row.
  rewrite (conforms_cons 1). apply and_iff_compat_l, Forall_iff. intros cell.
  apply conforms_1.
Qed.

Lemma conforms_transpose (h w c : nat) (cells : list (list (list A))) :
  conforms 3 [h; w; c] cells = true →
  conforms 3 [c; h; w] (swap_outer c (swap_outer c <$> cells)) = true.
Proof.
  rewrite !conforms_3. intros [Hh Hall]. split; [apply length_swap_outer |].
  apply Forall_swap_outer. intros k Hk. split.
  - rewrite length_column, length_fmap; [done |].
    apply Forall_fmap, Forall_true. intros row. simpl.
    by rewrite length_swap_outer.
  - apply Forall_column, Forall_fmap.
    eapply Forall_impl; [exact Hall |]. intros row [Hw Hcells]. simpl.
    apply Forall_swap_outer. intros k' Hk'.
    rewrite length_column; [done |].
    eapply Forall_impl; [exact Hcells |]. intros cell Hc. simpl.
    by rewrite Hc.
Qed.

Lemma getitem_3 (cells : list (list (list A))) (i j k : nat) :
  getitem 3 cells [i; j; k]
  = cells !! i ≫= (fun row => row !! j ≫= (fun cell => cell !! k ≫= Some)).
Proof. reflexivity. Qed.

Lemma getitem_2 (rows : list (list A)) (i j : nat) :
  getitem 2 rows [i; j] = rows !! i ≫= (fun row => row !! j ≫= Some).
Proof. reflexivity. Qed.

Lemma getitem_transpose (h w c : nat) (cells : list (list (list A))) (k i j : nat) :
  conforms 3 [h; w; c] cells = true →
  (k < c)%nat →
  getitem 3 (swap_outer c (swap_outer c <$> cells)) [k; i; j]
  = getitem 3 cells [i; j; k].
Proof.
  rewrite conforms_3. intros [Hh Hall] Hk.
  rewrite !getitem_3, lookup_swap_outer by done. cbn [mbind option_bind].
  rewrite lookup_column, list_lookup_fmap.
  2:{ apply Forall_fmap, Forall_true. intros row. simpl.
      by rewrite length_swap_outer. }
  destruct (cells !! i) as [row|] eqn:Hrow; cbn [fmap option_fmap option_map mbind option_bind];
    [| done].
  rewrite lookup_swap_outer by done. cbn [mbind option_bind].
  rewrite Forall_forall in Hall.
  destruct (Hall row) as [Hw Hcells]; [apply list_elem_of_lookup; eauto |].
  rewrite lookup_column.
  2:{ eapply Forall_impl; [exact Hcells |]. intros cell Hc. simpl.
      by rewrite Hc. }
  destruct (row !! j) as [cell|]; cbn [mbind option_bind]; [| done].
  by destruct (cell !! k).
Qed.
End Transpose.

(** * Properties of [Padding.__call__] *)

Section PaddingFacts.
Context {A F : Type} (float : A → F).

Lemma as_pairs_high_2 (a b : Z) :
  as_pairs [(0, Z.max 0 a); (0, Z.max 0 b)] 2
  = Ok [(0%nat, Z.to_nat (Z.max 0 a)); (0%nat, Z.to_nat (Z.max 0 b))].
Proof.
  unfold as_pairs. simpl existsb.
  rewrite !(proj2 (Z.ltb_ge _ 0)) by lia. reflexivity.
Qed.

Lemma as_pairs_high_3 (a b : Z) (nd : nat) :
  as_pairs [(0, Z.max 0 a); (0, Z.max 0 b); (0, 0)] nd
  = if Nat.eqb 3 nd
    then Ok [(0%nat, Z.to_nat (Z.max 0 a)); (0%nat, Z.to_nat (Z.max 0 b)); (0%nat, 0%nat)]
    else Raise ValueError.
Proof.
  unfold as_pairs. simpl existsb.
  rewrite !(proj2 (Z.ltb_ge _ 0)) by lia. reflexivity.
Qed.

(** What the call computes on a 2-dimensional array. *)
Lemma Padding_call_2d (self : Padding) (h w : nat) (rows : list (list A)) :
  let ph := pad_amount (target_h_size self) h in
  let pw := pad_amount (target_w_size self) w in
  Padding_call float self (NdArray 2 [h; w] rows)
  = if extends_empty_axis [h; w] [(0%nat, ph); (0%nat, pw)] then Raise ValueError
    else Ok (NdArray 3 [1%nat; (h + ph)%nat; (w + pw)%nat]
               (swap_outer 1
                  (swap_outer 1 <$>
                     map_items float 3
                       (expand_items 2 2
                          (pad_items 2 [(0%nat, ph); (0%nat, pw)] rows))))).
Proof.
  intros ph pw. unfold Padding_call, np_pad_reflect. cbn [shape take unpack_pair ndim items].
  cbn [mbind result_bind length Nat.eqb].
  rewrite as_pairs_high_2. fold (pad_amount (target_h_size self) h).
  fold (pad_amount (target_w_size self) w). fold ph pw.
  cbn [mbind result_bind].
  destruct (extends_empty_axis _ _); reflexivity.
Qed.

(** What the call computes on a 3-dimensional, channel-last array. *)
Lemma Padding_call_3d (self : Padding) (h w c : nat) (cells : list (list (list A))) :
  let ph := pad_amount (target_h_size self) h in
  let pw := pad_amount (target_w_size self) w in
  Padding_call float self (NdArray 3 [h; w; c] cells)
  = if extends_empty_axis [h; w; c] [(0%nat, ph); (0%nat, pw); (0%nat, 0%nat)]
    then Raise ValueError
    else Ok (NdArray 3 [c; (h + ph)%nat; (w + pw)%nat]
               (swap_outer c
                  (swap_outer c <$>
                     map_items float 3
                       (pad_items 3 [(0%nat, ph); (0%nat, pw); (0%nat, 0%nat)] cells)))).
Proof.
  intros ph pw. unfold Padding_call, np_pad_reflect. cbn [shape take unpack_pair ndim items].
  cbn [mbind result_bind length Nat.eqb].
  rewrite as_pairs_high_3. fold (pad_amount (target_h_size self) h).
  fold (pad_amount (target_w_size self) w). fold ph pw.
  cbn [mbind result_bind Nat.eqb].
  destruct (extends_empty_axis _ _); [reflexivity |].
  cbn [mbind result_bind map_array np_transpose_201 padded_shape zip_with
       ndim shape items fst snd Nat.add].
  by rewrite Nat.add_0_r.
Qed.

Lemma pad_amount_pos (t : Z) (d : nat) :
  pad_amount t d ≠ 0%nat ↔ Z.of_nat d < t.
Proof. unfold pad_amount. lia. Qed.

Lemma extends_empty_axis_2 (self : Padding) (h w : nat) :
  extends_empty_axis [h; w]
    [(0%nat, pad_amount (target_h_size self) h);
     (0%nat, pad_amount (target_w_size self) w)] = true
  ↔ extends_empty self h w.
Proof.
  unfold extends_empty_axis, extends_empty. simpl.
  rewrite !orb_true_iff, !andb_true_iff, !negb_true_iff, !Nat.eqb_eq, !Nat.eqb_neq.
  rewrite !pad_amount_pos. split.
  - intros [[-> H] | [[-> H] | [=]]]; [left | right]; (split; [done | lia]).
  - intros [[-> H] | [-> H]]; [left | right; left]; (split; [done | lia]).
Qed.

Lemma extends_empty_axis_3 (self : Padding) (h w c : nat) :
  extends_empty_axis [h; w; c]
    [(0%nat, pad_amount (target_h_size self) h);
     (0%nat, pad_amount (target_w_size self) w); (0%nat, 0%nat)] = true
  ↔ extends_empty self h w.
Proof.
  unfold extends_empty_axis, extends_empty. simpl.
  rewrite !orb_true_iff, !andb_true_iff, !negb_true_iff, !Nat.eqb_eq, !Nat.eqb_neq.
  rewrite !pad_amount_pos. split.
  - intros [[-> H] | [[-> H] | [[_ H] | [=]]]]; [left | right | done]; (split; [done | lia]).
  - intros [[-> H] | [-> H]]; [left | right; left]; (split; [done | lia]).
Qed.

(** A well-formed array of rank 2 or 3 is its shape and its nested items. *)
Lemma well_formed_2d (x : ndarray A) (h w : nat) :
  well_formed x → ndim x = 2%nat → take 2 (shape x) = [h; w] →
  ∃ rows, x = NdArray 2 [h; w] rows ∧ conforms 2 [h; w] rows = true.
Proof.
  destruct x as [n s it]. rewrite well_formed_iff. simpl.
  intros [Hs Hc] -> Htake.
  destruct s as [|a [|b [|? ?]]]; try discriminate.
  injection Htake as -> ->. by exists it.
Qed.

Lemma well_formed_3d (x : ndarray A) (h w : nat) :
  well_formed x → ndim x = 3%nat → take 2 (shape x) = [h; w] →
  ∃ c cells, x = NdArray 3 [h; w; c] cells ∧ conforms 3 [h; w; c] cells = true.
Proof.
  destruct x as [n s it]. rewrite well_formed_iff. simpl.
  intros [Hs Hc] -> Htake.
  destruct s as [|a [|b [|c [|? ?]]]]; try discriminate.
  injection Htake as -> ->. by exists c, it.
Qed.

Lemma well_formed_result_2d (h w ph pw : nat) (rows : list (list A)) :
  extends_empty_axis [h; w] [(0%nat, ph); (0%nat, pw)] = false →
  conforms 2 [h; w] rows = true →
  well_formed
    (NdArray 3 [1%nat; (h + ph)%nat; (w + pw)%nat]
       (swap_outer 1
          (swap_outer 1 <$>
             map_items float 3
               (expand_items 2 2 (pad_items 2 [(0%nat, ph); (0%nat, pw)] rows))))).
Proof.
  intros Hext Hc. apply well_formed_iff. split; [done |]. cbn [ndim shape items].
  apply conforms_transpose, conforms_map_items.
  apply (conforms_expand_items 2 2 [(h + ph)%nat; (w + pw)%nat]); [lia | done |].
  by apply (conforms_pad_items 2 [h; w] [(0%nat, ph); (0%nat, pw)]).
Qed.

Lemma well_formed_result_3d (h w c ph pw : nat) (cells : list (list (list A))) :
  extends_empty_axis [h; w; c] [(0%nat, ph); (0%nat, pw); (0%nat, 0%nat)] = false →
  conforms 3 [h; w; c] cells = true →
  well_formed
    (NdArray 3 [c; (h + ph)%nat; (w + pw)%nat]
       (swap_outer c
          (swap_outer c <$>
             map_items float 3
               (pad_items 3 [(0%nat, ph); (0%nat, pw); (0%nat, 0%nat)] cells)))).
Proof.
  intros Hext Hc. apply well_formed_iff. split; [done |]. cbn [ndim shape items].
  apply conforms_transpose, conforms_map_items.
  pose proof (conforms_pad_items 3 [h; w; c]
                [(0%nat, ph); (0%nat, pw); (0%nat, 0%nat)] cells eq_refl Hext Hc) as H.
  unfold padded_shape in H. simpl zip_with in H.
  by rewrite Nat.add_0_r in H.
Qed.

(** The call returns whenever no axis that has to be extended is empty;
    the result is well formed, channel first, and each spatial extent is
    the input's plus the pad amount. *)
Lemma Padding_call_returns (self : Padding) (x : ndarray A) (h w : nat) :
  well_formed x →
  (ndim x = 2 ∨ ndim x = 3)%nat →
  take 2 (shape x) = [h; w] →
  ¬ extends_empty self h w →
  ∃ out, Padding_call float self x = Ok out
         ∧ well_formed out
         ∧ shape out = [channels x;
                        (h + pad_amount (target_h_size self) h)%nat;
                        (w + pad_amount (target_w_size self) w)%nat].
Proof.
  intros Hwf [Hn | Hn] Htake Hne.
  - destruct (well_formed_2d x h w Hwf Hn Htake) as (rows & -> & Hc).
    rewrite Padding_call_2d.
    destruct (extends_empty_axis _ _) eqn:Hext.
    + by apply extends_empty_axis_2 in Hext.
    + eexists. split; [reflexivity |]. split; [| reflexivity].
      by apply well_formed_result_2d.
  - destruct (well_formed_3d x h w Hwf Hn Htake) as (c & cells & -> & Hc).
    rewrite Padding_call_3d.
    destruct (extends_empty_axis _ _) eqn:Hext.
    + by apply extends_empty_axis_3 in Hext.
    + eexists. split; [reflexivity |]. split; [| reflexivity].
      by apply well_formed_result_3d.
Qed.

(** Extending an empty axis is refused, whatever the rank. *)
Lemma Padding_call_empty_axis (self : Padding) (x : ndarray A) (h w : nat) :
  well_formed x →
  take 2 (shape x) = [h; w] →
  extends_empty self h w →
  Padding_call float self x = Raise ValueError.
Proof.
  intros Hwf Htake He.
  destruct (decide (ndim x = 2%nat)) as [Hn | Hn2].
  { destruct (well_formed_2d x h w Hwf Hn Htake) as (rows & -> & Hc).
    rewrite Padding_call_2d.
    apply extends_empty_axis_2 in He. by rewrite He. }
  destruct (decide (ndim x = 3%nat)) as [Hn | Hn3].
  { destruct (well_formed_3d x h w Hwf Hn Htake) as (c & cells & -> & Hc).
    rewrite Padding_call_3d.
    apply (extends_empty_axis_3 self h w c) in He. by rewrite He. }
  apply well_formed_iff in Hwf as [Hs _].
  unfold Padding_call, np_pad_reflect. rewrite Htake. cbn [unpack_pair mbind result_bind].
  rewrite Hs. destruct (Nat.eqb_spec (ndim x) 2) as [|_]; [done |].
  rewrite as_pairs_high_3.
  destruct (Nat.eqb_spec 3 (ndim x)) as [|_]; [done |]. reflexivity.
Qed.

(** More than three dimensions: the three pad pairs do not broadcast. *)
Lemma Padding_call_high_rank (self : Padding) (x : ndarray A) :
  length (shape x) = ndim x →
  (3 < ndim x)%nat →
  Padding_call float self x = Raise ValueError.
Proof.
  intros Hs Hn.
  assert (∃ h w, take 2 (shape x) = [h; w]) as (h & w & Htake).
  { destruct (shape x) as [|h [|w s]]; simpl in Hs; [lia .. |]. by exists h, w. }
  unfold Padding_call, np_pad_reflect. rewrite Htake.
  cbn [unpack_pair mbind result_bind]. rewrite Hs.
  destruct (Nat.eqb_spec (ndim x) 2) as [|_]; [lia |].
  rewrite as_pairs_high_3.
  destruct (Nat.eqb_spec 3 (ndim x)) as [|_]; [lia |]. reflexivity.
Qed.
End PaddingFacts.

(** * The transform: claims *)

Section PaddingClaims.
Context {A F : Type} (float : A → F).

(** C1 (amended).  For a 2-dimensional or 3-dimensional channel-last
    input of spatial size (h, w) with h ≤ target_h and w ≤ target_w in
    which no axis that has to be extended is empty, the call returns a
    well-formed channel-first tensor whose spatial size is exactly
    (target_h, target_w); a 2-dimensional input gets one channel. *)
Theorem Padding_call_reaches_target (self : Padding) (x : ndarray A) (h w : nat) :
  well_formed x →
  (ndim x = 2 ∨ ndim x = 3)%nat →
  take 2 (shape x) = [h; w] →
  Z.of_nat h ≤ target_h_size self →
  Z.of_nat w ≤ target_w_size self →
  ¬ extends_empty self h w →
  ∃ out, Padding_call float self x = Ok out
         ∧ well_formed out
         ∧ spatial_size out = [Z.to_nat (target_h_size self);
                               Z.to_nat (target_w_size self)]
         ∧ shape out = channels x :: spatial_size out.
Proof.
  intros Hwf Hn Htake Hh Hw Hne.
  destruct (Padding_call_returns float self x h w Hwf Hn Htake Hne)
    as (out & Hcall & Hout & Hshape).
  exists out. split; [done |]. split; [done |].
  unfold spatial_size. rewrite Hshape. simpl drop.
  assert ((h + pad_amount (target_h_size self) h)%nat = Z.to_nat (target_h_size self))
    as -> by (unfold pad_amount; lia).
  assert ((w + pad_amount (target_w_size self) w)%nat = Z.to_nat (target_w_size self))
    as -> by (unfold pad_amount; lia).
  done.
Qed.

(** C2.  For a 2-dimensional or 3-dimensional channel-last input of
    spatial size (h, w) with h ≥ target_h and w ≥ target_w the call
    returns and never crops: the spatial size of the result is (h, w). *)
Theorem Padding_call_never_crops (self : Padding) (x : ndarray A) (h w : nat) :
  well_formed x →
  (ndim x = 2 ∨ ndim x = 3)%nat →
  take 2 (shape x) = [h; w] →
  target_h_size self ≤ Z.of_nat h →
  target_w_size self ≤ Z.of_nat w →
  ∃ out, Padding_call float self x = Ok out
         ∧ well_formed out
         ∧ spatial_size out = [h; w]
         ∧ shape out = channels x :: spatial_size out.
Proof.
  intros Hwf Hn Htake Hh Hw.
  assert (¬ extends_empty self h w) as Hne.
  { unfold extends_empty. lia. }
  destruct (Padding_call_returns float self x h w Hwf Hn Htake Hne)
    as (out & Hcall & Hout & Hshape).
  exists out. split; [done |]. split; [done |].
  unfold spatial_size. rewrite Hshape. simpl drop.
  assert (pad_amount (target_h_size self) h = 0%nat) as -> by (unfold pad_amount; lia).
  assert (pad_amount (target_w_size self) w = 0%nat) as -> by (unfold pad_amount; lia).
  by rewrite !Nat.add_0_r.
Qed.

(** C7.  On an input with fewer than 2 dimensions the call fails:
    unpacking [x.shape[:2]] into [h, w] raises [ValueError]. *)
Theorem Padding_call_low_rank (self : Padding) (x : ndarray A) :
  (length (shape x) < 2)%nat →
  Padding_call float self x = Raise ValueError.
Proof.
  intros Hlen. unfold Padding_call.
  destruct (shape x) as [|h [|w s]]; [done | done |].
  simpl in Hlen. lia.
Qed.

(** C9.  Only the high end of each spatial axis is padded, so the input
    stays, unmoved, in the top-left corner of the result: whenever the
    call returns [out], [out[0, i, j] = float(x[i, j])] for a
    2-dimensional [x] and [out[c, i, j] = float(x[i, j, c])] for a
    3-dimensional one, at every index of [x]. *)
Theorem Padding_call_keeps_content (self : Padding) (x : ndarray A) (out : ndarray F) :
  well_formed x →
  Padding_call float self x = Ok out →
  (∀ h w i j, shape x = [h; w] → (i < h)%nat → (j < w)%nat →
     ∃ v, at_index x [i; j] = Some v
          ∧ at_index out [0%nat; i; j] = Some (float v))
  ∧ (∀ h w c i j k, shape x = [h; w; c] → (i < h)%nat → (j < w)%nat → (k < c)%nat →
       ∃ v, at_index x [i; j; k] = Some v
            ∧ at_index out [k; i; j] = Some (float v)).
Proof.
  intros Hwf Hcall. split.
  - intros h w i j Hshape Hi Hj.
    assert (ndim x = 2%nat) as Hn.
    { by rewrite (well_formed_ndim x Hwf), Hshape. }
    destruct (well_formed_2d x h w Hwf Hn) as (rows & -> & Hc); [by rewrite Hshape |].
    rewrite Padding_call_2d in Hcall.
    destruct (extends_empty_axis _ _) eqn:Hext; [discriminate |].
    apply Ok_inj in Hcall. subst out.
    destruct (getitem_in_range 2 [h; w] rows [i; j] Hc) as [v Hv].
    { repeat constructor; done. }
    exists v. split; [exact Hv |].
    unfold at_index. cbn [ndim items].
    set (ph := pad_amount (target_h_size self) h) in *.
    set (pw := pad_amount (target_w_size self) w) in *.
    pose proof (conforms_pad_items 2 [h; w] [(0%nat, ph); (0%nat, pw)] rows
                  eq_refl Hext Hc) as Hpad.
    apply (conforms_expand_items 2 2 [(h + ph)%nat; (w + pw)%nat]) in Hpad;
      [| lia | done].
    apply (conforms_map_items float) in Hpad.
    rewrite (getitem_transpose (h + ph) (w + pw) 1 _ 0 i j Hpad) by lia.
    rewrite getitem_map_items.
    rewrite (getitem_expand_items_last 2 _ [i; j]) by done.
    rewrite (getitem_pad_items_high 2 _ rows [i; j] v); [done | | done].
    repeat constructor.
  - intros h w c i j k Hshape Hi Hj Hk.
    assert (ndim x = 3%nat) as Hn.
    { by rewrite (well_formed_ndim x Hwf), Hshape. }
    destruct (well_formed_3d x h w Hwf Hn) as (c' & cells & -> & Hc);
      [by rewrite Hshape |].
    injection Hshape as <-.
    rewrite Padding_call_3d in Hcall.
    destruct (extends_empty_axis _ _) eqn:Hext; [discriminate |].
    apply Ok_inj in Hcall. subst out.
    destruct (getitem_in_range 3 [h; w; c'] cells [i; j; k] Hc) as [v Hv].
    { repeat constructor; done. }
    exists v. split; [exact Hv |].
    unfold at_index. cbn [ndim items].
    set (ph := pad_amount (target_h_size self) h) in *.
    set (pw := pad_amount (target_w_size self) w) in *.
    pose proof (conforms_pad_items 3 [h; w; c']
                  [(0%nat, ph); (0%nat, pw); (0%nat, 0%nat)] cells eq_refl Hext Hc)
      as Hpad.
    unfold padded_shape in Hpad. simpl zip_with in Hpad.
    rewrite Nat.add_0_r in Hpad.
    apply (conforms_map_items float) in Hpad.
    rewrite (getitem_transpose (h + ph) (w + pw) c' _ k i j Hpad) by done.
    rewrite getitem_map_items.
    rewrite (getitem_pad_items_high 3 _ cells [i; j; k] v); [done | | done].
    repeat constructor.
Qed.

(** C10 (amended).  The call is not total on inputs with at least 2
    dimensions: it raises [ValueError] whenever an axis that has to be
    extended is empty or the input has more than 3 dimensions.  On every
    other input it returns, however far the pad amount exceeds the size
    of the axis: reflection is repeated, and an axis of length 1 is
    filled with its only item. *)
Theorem Padding_call_fails_only_on_empty_axis (self : Padding) (x : ndarray A)
    (h w : nat) :
  well_formed x →
  take 2 (shape x) = [h; w] →
  (extends_empty self h w ∨ (3 < ndim x)%nat →
     Padding_call float self x = Raise ValueError)
  ∧ (¬ extends_empty self h w → (ndim x ≤ 3)%nat →
       ∃ out, Padding_call float self x = Ok out
              ∧ well_formed out
              ∧ spatial_size out
                = [(h + pad_amount (target_h_size self) h)%nat;
                   (w + pad_amount (target_w_size self) w)%nat]).
Proof.
  intros Hwf Htake. split.
  - intros [He | Hn].
    + by apply (Padding_call_empty_axis float self x h w).
    + apply Padding_call_high_rank; [| done].
      by rewrite (well_formed_ndim x Hwf).
  - intros Hne Hn.
    assert (ndim x = 2 ∨ ndim x = 3)%nat as Hrank.
    { rewrite (well_formed_ndim x Hwf) in *.
      assert (2 ≤ length (shape x))%nat; [| lia].
      destruct (shape x) as [|? [|? ?]]; simpl in *; try done; lia. }
    destruct (Padding_call_returns float self x h w Hwf Hrank Htake Hne)
      as (out & Hcall & Hout & Hshape).
    exists out. split; [done |]. split; [done |].
    unfold spatial_size. by rewrite Hshape.
Qed.
End PaddingClaims.

(** * The transform: the claims on sample inputs *)

(** C1 at the notebook's transform: a grayscale (200, 600) input under
    [Padding(256, 704)] gives a tensor of shape (1, 256, 704). *)
Lemma Padding_call_reaches_target_witness :
  ∃ out, Padding_call exact_float transform gray_200x600 = Ok out
         ∧ well_formed out
         ∧ shape out = [1; 256; 704]%nat.
Proof.
  destruct (Padding_call_reaches_target exact_float transform gray_200x600 200 600)
    as (out & Hcall & Hout & Hspatial & Hshape).
  - vm_compute. reflexivity.
  - left. reflexivity.
  - reflexivity.
  - simpl. lia.
  - simpl. lia.
  - unfold extends_empty. lia.
  - exists out. split; [exact Hcall |]. split; [exact Hout |].
    rewrite Hshape, Hspatial. reflexivity.
Defined.

(** C1 as stated fails on an input with an empty axis: a (0, 5) array is
    below the target (256, 704) in both axes, and [np.pad] refuses to
    extend its empty axis 0. *)
Lemma Padding_call_reaches_target_counterexample :
  well_formed empty_0x5
  ∧ shape empty_0x5 = [0; 5]%nat
  ∧ 0 ≤ target_h_size transform
  ∧ 5 ≤ target_w_size transform
  ∧ Padding_call exact_float transform empty_0x5 = Raise ValueError.
Proof.
  split; [reflexivity |]. split; [reflexivity |].
  split; [simpl; lia |]. split; [simpl; lia |]. reflexivity.
Qed.

(** C2 on a colour (2, 2, 3) input under [Padding(1, 2)]: the result is
    (3, 2, 2), nothing is cropped. *)
Lemma Padding_call_never_crops_witness :
  ∃ out, Padding_call exact_float {| target_h_size := 1; target_w_size := 2 |} rgb_2x2
         = Ok out
         ∧ shape out = [3; 2; 2]%nat.
Proof.
  destruct (Padding_call_never_crops exact_float
              {| target_h_size := 1; target_w_size := 2 |} rgb_2x2 2 2)
    as (out & Hcall & Hout & Hspatial & Hshape).
  - reflexivity.
  - right. reflexivity.
  - reflexivity.
  - simpl. lia.
  - simpl. lia.
  - exists out. split; [exact Hcall |].
    rewrite Hshape, Hspatial. reflexivity.
Defined.

(** C7 on a 1-dimensional and on a 0-dimensional input. *)
Lemma Padding_call_low_rank_witness :
  Padding_call exact_float transform vector_3 = Raise ValueError
  ∧ Padding_call exact_float transform scalar_7 = Raise ValueError.
Proof.
  split.
  - apply (Padding_call_low_rank exact_float transform vector_3). simpl. lia.
  - apply (Padding_call_low_rank exact_float transform scalar_7). simpl. lia.
Defined.

(** C9 on the (2, 3) sample under [Padding(3, 5)]: the result holds the
    input at [0, i, j]. *)
Lemma Padding_call_keeps_content_witness :
  at_index gray_2x3 [1; 2]%nat = Some 6
  ∧ at_index gray_2x3_padded [0; 1; 2]%nat = Some (exact_float 6).
Proof.
  destruct (Padding_call_keeps_content exact_float
              {| target_h_size := 3; target_w_size := 5 |} gray_2x3 gray_2x3_padded)
    as [H2d _].
  - reflexivity.
  - reflexivity.
  - destruct (H2d 2%nat 3%nat 1%nat 2%nat) as (v & Hv & Hout).
    + reflexivity.
    + lia.
    + lia.
    + assert (v = 6) as -> by (vm_compute in Hv; congruence).
      split; [exact Hv | exact Hout].
Defined.

(** C10 as stated fails: a (1, 704) input under [Padding(256, 704)] needs
    255 more rows than the [1 - 1] the claim allows, and the call returns
    a (1, 256, 704) tensor; a (1, 3) input under [Padding(3, 3)] comes
    back with its row repeated. *)
Lemma Padding_call_fails_only_on_empty_axis_counterexample :
  (well_formed gray_1x704
   ∧ shape gray_1x704 = [1; 704]%nat
   ∧ target_h_size transform - 1 > 1 - 1
   ∧ ∃ out, Padding_call exact_float transform gray_1x704 = Ok out
            ∧ shape out = [1; 256; 704]%nat)
  ∧ (well_formed gray_1x3
     ∧ 3 - 1 > 1 - 1
     ∧ Padding_call exact_float {| target_h_size := 3; target_w_size := 3 |} gray_1x3
       = Ok gray_1x3_padded).
Proof.
  split.
  - split; [vm_compute; reflexivity |]. split; [reflexivity |]. split; [simpl; lia |].
    destruct (Padding_call_returns exact_float transform gray_1x704 1 704)
      as (out & Hcall & _ & Hshape).
    + vm_compute. reflexivity.
    + left. reflexivity.
    + reflexivity.
    + unfold extends_empty. lia.
    + exists out. split; [exact Hcall |]. rewrite Hshape. reflexivity.
  - split; [reflexivity |]. split; [lia |]. reflexivity.
Qed.

(** C10 (amended) on two samples: extending the empty axis of a (0, 5)
    input fails, the (1, 3) input is padded to (3, 3). *)
Lemma Padding_call_fails_only_on_empty_axis_witness :
  Padding_call exact_float transform empty_0x5 = Raise ValueError
  ∧ ∃ out, Padding_call exact_float {| target_h_size := 3; target_w_size := 3 |} gray_1x3
           = Ok out
           ∧ well_formed out
           ∧ spatial_size out = [3; 3]%nat.
Proof.
  split.
  - destruct (Padding_call_fails_only_on_empty_axis exact_float transform empty_0x5 0 5)
      as [Hfail _].
    + reflexivity.
    + reflexivity.
    + apply Hfail. left. left. split; [reflexivity | simpl; lia].
  - destruct (Padding_call_fails_only_on_empty_axis exact_float
                {| target_h_size := 3; target_w_size := 3 |} gray_1x3 1 3)
      as [_ Hret].
    + reflexivity.
    + reflexivity.
    + apply Hret.
      * unfold extends_empty. simpl. lia.
      * simpl. lia.
Defined.

(** * The data module *)

Section DataModuleFacts.
Context {Reader Dataset : Type}.
Context (TiffReader PNGReader : Path → result Reader).
Context (SupervisedReconstructionDataset :
           list Reader → option Padding → result Dataset).

Local Abbreviation do_setup :=
  (setup TiffReader PNGReader SupervisedReconstructionDataset).
Local Abbreviation World := (World Dataset).

Lemma setup_fit (w : World) (r1 r2 r3 r4 : Reader) (d1 d2 : Dataset) :
  TiffReader (train_path (self w) // "train") = Ok r1 →
  PNGReader (annotations_path (self w) // "train") = Ok r2 →
  SupervisedReconstructionDataset [r1; r2] (transforms (self w)) = Ok d1 →
  TiffReader (train_path (self w) // "val") = Ok r3 →
  PNGReader (annotations_path (self w) // "val") = Ok r4 →
  SupervisedReconstructionDataset [r3; r4] (transforms (self w)) = Ok d2 →
  do_setup (Some "fit") w
  = (Ok tt, stored w [d1; d2] "train" (length (objects w))
              "val" (S (length (objects w)))).
Proof.
  intros H1 H2 H3 H4 H5 H6. unfold setup.
  unfold mbind, M_bind, get_self, call, new, datasets_setitem. cbn [self objects].
  rewrite decide_True by done.
  rewrite H1, H2, H3. cbn [self objects]. rewrite H4, H5, H6. cbn [self objects].
  unfold stored. rewrite length_app, <- app_assoc. simpl length.
  by rewrite Nat.add_1_r.
Qed.

Lemma setup_test_predict (w : World) (stage : string) (r1 r2 : Reader) (d : Dataset) :
  stage = "test" ∨ stage = "predict" →
  TiffReader (train_path (self w) // "test") = Ok r1 →
  PNGReader (annotations_path (self w) // "test") = Ok r2 →
  SupervisedReconstructionDataset [r1; r2] (transforms (self w)) = Ok d →
  do_setup (Some stage) w
  = (Ok tt, stored w [d] "test" (length (objects w)) "predict" (length (objects w))).
Proof.
  intros Hstage H1 H2 H3. unfold setup.
  unfold mbind, M_bind, get_self, call, new, datasets_setitem. cbn [self objects].
  rewrite decide_False by (destruct Hstage; by subst).
  rewrite decide_True by (destruct Hstage; subst; auto).
  rewrite H1, H2, H3. reflexivity.
Qed.

Lemma dataset_of_stored_2 (w : World) (new : list Dataset) (k1 k2 : string)
    (d1 d2 : ref) (d : Dataset) :
  (objects w ++ new) !! d2 = Some d →
  dataset_of (stored w new k1 d1 k2 d2) k2 = Some d.
Proof.
  intros H. unfold dataset_of, stored. cbn [self objects datasets].
  by rewrite lookup_insert_eq.
Qed.

Lemma dataset_of_stored_1 (w : World) (new : list Dataset) (k1 k2 : string)
    (d1 d2 : ref) (d : Dataset) :
  k1 ≠ k2 →
  (objects w ++ new) !! d1 = Some d →
  dataset_of (stored w new k1 d1 k2 d2) k1 = Some d.
Proof.
  intros Hne H. unfold dataset_of, stored. cbn [self objects datasets].
  by rewrite lookup_insert_ne, lookup_insert_eq.
Qed.

Lemma lookup_new_object (objs new : list Dataset) (i : nat) :
  (objs ++ new) !! (length objs + i)%nat = new !! i.
Proof. by rewrite lookup_app_r, Nat.add_comm, Nat.add_sub by lia. Qed.
End DataModuleFacts.

(** * The data module: claims *)

Section DataModuleClaims.
Context {Reader Dataset : Type}.
Context (TiffReader PNGReader : Path → result Reader).
Context (SupervisedReconstructionDataset :
           list Reader → option Padding → result Dataset).
Context {Loader : Type} (DataLoader : LoaderArgs → result Loader).

Local Abbreviation do_setup :=
  (setup TiffReader PNGReader SupervisedReconstructionDataset).
Local Abbreviation World := (World Dataset).

(** C3.  [setup("fit")] on a freshly constructed module whose train and
    val readers and datasets can be built returns, and afterwards the
    dataset keys are exactly train and val: these two refer to the train
    and the val dataset, test and predict are absent. *)
Theorem setup_fit_populates_train_val (cpu_count : option Z) (tp ap : string)
    (tr : option Padding) (bs : Z) (nw : option Z) (objs : list Dataset)
    (r1 r2 r3 r4 : Reader) (d1 d2 : Dataset) :
  let w : World :=
    {| self := F3DataModule_init cpu_count tp ap tr bs nw; objects := objs |} in
  TiffReader (tp // "train") = Ok r1 →
  PNGReader (ap // "train") = Ok r2 →
  SupervisedReconstructionDataset [r1; r2] tr = Ok d1 →
  TiffReader (tp // "val") = Ok r3 →
  PNGReader (ap // "val") = Ok r4 →
  SupervisedReconstructionDataset [r3; r4] tr = Ok d2 →
  ∃ w', do_setup (Some "fit") w = (Ok tt, w')
        ∧ dom (datasets (self w')) = {["train"; "val"]}
        ∧ dataset_of w' "train" = Some d1
        ∧ dataset_of w' "val" = Some d2
        ∧ datasets (self w') !! "test" = None
        ∧ datasets (self w') !! "predict" = None.
Proof.
  intros w H1 H2 H3 H4 H5 H6.
  eexists. split; [by apply (setup_fit _ _ _ w r1 r2 r3 r4 d1 d2) |].
  split; [| split; [| split; [| split]]].
  - unfold stored. cbn [self datasets F3DataModule_init w].
    rewrite !dom_insert_L, dom_empty_L. set_solver.
  - apply dataset_of_stored_1; [done |].
    by rewrite <- (Nat.add_0_r (length (objects w))), lookup_new_object.
  - apply dataset_of_stored_2.
    by rewrite <- (Nat.add_1_r (length (objects w))), lookup_new_object.
  - unfold stored. cbn [self datasets F3DataModule_init w].
    by rewrite !lookup_insert_ne, lookup_empty.
  - unfold stored. cbn [self datasets F3DataModule_init w].
    by rewrite !lookup_insert_ne, lookup_empty.
Qed.

(** C4.  [setup("test")] and [setup("predict")] build exactly one
    dataset, from the test-split reader pair, and store that one object
    under both the test and the predict key; the other keys keep what
    they had. *)
Theorem setup_test_predict_alias (w : World) (stage : string)
    (r1 r2 : Reader) (d : Dataset) :
  stage = "test" ∨ stage = "predict" →
  TiffReader (train_path (self w) // "test") = Ok r1 →
  PNGReader (annotations_path (self w) // "test") = Ok r2 →
  SupervisedReconstructionDataset [r1; r2] (transforms (self w)) = Ok d →
  ∃ w' (obj : ref),
    do_setup (Some stage) w = (Ok tt, w')
    ∧ objects w' = objects w ++ [d]
    ∧ obj = length (objects w)
    ∧ datasets (self w') !! "test" = Some obj
    ∧ datasets (self w') !! "predict" = Some obj
    ∧ objects w' !! obj = Some d
    ∧ ∀ key, key ≠ "test" → key ≠ "predict" →
             datasets (self w') !! key = datasets (self w) !! key.
Proof.
  intros Hstage H1 H2 H3.
  eexists _, (length (objects w)).
  split; [by apply (setup_test_predict _ _ _ w stage r1 r2 d) |].
  unfold stored. cbn [self objects datasets].
  split; [done |]. split; [done |].
  split; [by rewrite lookup_insert_ne, lookup_insert_eq |].
  split; [by rewrite lookup_insert_eq |].
  split.
  - by rewrite <- (Nat.add_0_r (length (objects w))), lookup_new_object.
  - intros key Ht Hp. by rewrite !lookup_insert_ne.
Qed.

(** C5.  On every stage other than "fit", "test" and "predict" (the
    default [None] included) [setup] raises [ValueError] and leaves the
    world, and so the dataset mapping, as it was. *)
Theorem setup_invalid_stage (w : World) (stage : option string) :
  stage ≠ Some "fit" → stage ≠ Some "test" → stage ≠ Some "predict" →
  do_setup stage w = (Raise ValueError, w).
Proof.
  intros Hf Ht Hp. unfold setup, mbind, M_bind, get_self, raise.
  rewrite decide_False by done.
  rewrite decide_False by (intros [?|?]; done).
  reflexivity.
Qed.

(** C6.  A loader accessor whose dataset has not been built raises
    [KeyError]: all four do on a freshly constructed module, and after
    [setup("fit")] the test and predict loaders still do, while the train
    loader finds the train dataset, calls the [DataLoader] constructor on
    it and returns the loader whenever the constructor accepts the
    module's batch size and worker count. *)
Theorem loader_before_setup_fails (cpu_count : option Z) (tp ap : string)
    (tr : option Padding) (bs : Z) (nw : option Z) (objs : list Dataset)
    (r1 r2 r3 r4 : Reader) (d1 d2 : Dataset) :
  let w : World :=
    {| self := F3DataModule_init cpu_count tp ap tr bs nw; objects := objs |} in
  TiffReader (tp // "train") = Ok r1 →
  PNGReader (ap // "train") = Ok r2 →
  SupervisedReconstructionDataset [r1; r2] tr = Ok d1 →
  TiffReader (tp // "val") = Ok r3 →
  PNGReader (ap // "val") = Ok r4 →
  SupervisedReconstructionDataset [r3; r4] tr = Ok d2 →
  (train_dataloader DataLoader w = (Raise KeyError, w)
   ∧ val_dataloader DataLoader w = (Raise KeyError, w)
   ∧ test_dataloader DataLoader w = (Raise KeyError, w)
   ∧ predict_dataloader DataLoader w = (Raise KeyError, w))
  ∧ ∃ w' (train : ref),
      do_setup (Some "fit") w = (Ok tt, w')
      ∧ test_dataloader DataLoader w' = (Raise KeyError, w')
      ∧ predict_dataloader DataLoader w' = (Raise KeyError, w')
      ∧ objects w' !! train = Some d1
      ∧ train_dataloader DataLoader w'
        = (DataLoader (loader_args (self w) train true), w')
      ∧ ∀ loader, DataLoader (loader_args (self w) train true) = Ok loader →
                  train_dataloader DataLoader w' = (Ok loader, w').
Proof.
  intros w H1 H2 H3 H4 H5 H6. split.
  - unfold train_dataloader, val_dataloader, test_dataloader, predict_dataloader.
    unfold mbind, M_bind, get_self, datasets_getitem.
    cbn [self datasets F3DataModule_init w]. by rewrite !lookup_empty.
  - exists (stored w [d1; d2] "train" (length objs) "val" (S (length objs))),
      (length objs).
    split; [by apply (setup_fit _ _ _ w r1 r2 r3 r4 d1 d2) |].
    assert (train_dataloader DataLoader
              (stored w [d1; d2] "train" (length objs) "val" (S (length objs)))
            = (DataLoader (loader_args (self w) (length objs) true),
               stored w [d1; d2] "train" (length objs) "val" (S (length objs))))
      as Htrain.
    { unfold train_dataloader, mbind, M_bind, get_self, datasets_getitem, call, stored.
      cbn [self objects datasets].
      by rewrite (lookup_insert_ne _ "val" "train"), lookup_insert_eq. }
    split.
    { unfold test_dataloader, mbind, M_bind, get_self, datasets_getitem, stored.
      cbn [self objects datasets F3DataModule_init w].
      by rewrite !lookup_insert_ne, lookup_empty. }
    split.
    { unfold predict_dataloader, mbind, M_bind, get_self, datasets_getitem, stored.
      cbn [self objects datasets F3DataModule_init w].
      by rewrite !lookup_insert_ne, lookup_empty. }
    split.
    { unfold stored. cbn [objects w].
      by rewrite <- (Nat.add_0_r (length objs)), lookup_new_object. }
    split; [exact Htrain |].
    intros loader Hloader. by rewrite Htrain, Hloader.
Qed.

(** C8.  Each accessor constructs its loader over the dataset stored
    under its key, with the module's batch size and worker count, the
    train loader with [shuffle=True] and the val, test and predict loaders
    with [shuffle=False], and returns what the constructor returns. *)
Theorem loaders_configuration (w : World) :
  (∀ d, datasets (self w) !! "train" = Some d →
        train_dataloader DataLoader w
        = (DataLoader {| dl_dataset := d; dl_batch_size := batch_size (self w);
                         dl_num_workers := num_workers (self w);
                         dl_shuffle := true |}, w))
  ∧ (∀ d, datasets (self w) !! "val" = Some d →
          val_dataloader DataLoader w
          = (DataLoader {| dl_dataset := d; dl_batch_size := batch_size (self w);
                           dl_num_workers := num_workers (self w);
                           dl_shuffle := false |}, w))
  ∧ (∀ d, datasets (self w) !! "test" = Some d →
          test_dataloader DataLoader w
          = (DataLoader {| dl_dataset := d; dl_batch_size := batch_size (self w);
                           dl_num_workers := num_workers (self w);
                           dl_shuffle := false |}, w))
  ∧ (∀ d, datasets (self w) !! "predict" = Some d →
          predict_dataloader DataLoader w
          = (DataLoader {| dl_dataset := d; dl_batch_size := batch_size (self w);
                           dl_num_workers := num_workers (self w);
                           dl_shuffle := false |}, w)).
Proof.
  unfold train_dataloader, val_dataloader, test_dataloader, predict_dataloader.
  unfold mbind, M_bind, get_self, datasets_getitem, call.
  repeat split; intros d Hd; by rewrite Hd.
Qed.
End DataModuleClaims.

(** * The data module: the claims on the notebook's configuration *)

(** C3 on the notebook's module over a disk that holds the three splits. *)
Lemma setup_fit_populates_train_val_witness :
  ∃ w', f3_setup (Some "fit") fresh_world = (Ok tt, w')
        ∧ dom (datasets (self w')) = {["train"; "val"]}
        ∧ is_Some (dataset_of w' "train")
        ∧ is_Some (dataset_of w' "val")
        ∧ datasets (self w') !! "test" = None
        ∧ datasets (self w') !! "predict" = None.
Proof.
  edestruct (setup_fit_populates_train_val (open_reader f3_disk) (open_reader f3_disk)
               PairedDataset_new (Some 8) train_path_cfg annotation_path_cfg
               (Some transform) 1 None [])
    as (w' & Hrun & Hdom & Htrain & Hval & Htest & Hpredict).
  - vm_compute. reflexivity.
  - vm_compute. reflexivity.
  - vm_compute. reflexivity.
  - vm_compute. reflexivity.
  - vm_compute. reflexivity.
  - vm_compute. reflexivity.
  - exists w'. split; [exact Hrun |]. split; [exact Hdom |].
    split; [by eexists |]. split; [by eexists |]. split; [exact Htest | exact Hpredict].
Defined.

(** C4 on the notebook's module: after [setup("predict")] both keys hold
    the one new object. *)
Lemma setup_test_predict_alias_witness :
  ∃ w', f3_setup (Some "predict") fresh_world = (Ok tt, w')
        ∧ length (objects w') = 1%nat
        ∧ datasets (self w') !! "test" = Some 0%nat
        ∧ datasets (self w') !! "predict" = Some 0%nat.
Proof.
  edestruct (setup_test_predict_alias (open_reader f3_disk) (open_reader f3_disk)
               PairedDataset_new fresh_world "predict")
    as (w' & obj & Hrun & Hobjs & Hobj & Htest & Hpredict & _).
  - right. reflexivity.
  - vm_compute. reflexivity.
  - vm_compute. reflexivity.
  - vm_compute. reflexivity.
  - exists w'. subst obj. split; [exact Hrun |].
    split; [by rewrite Hobjs |]. split; [exact Htest | exact Hpredict].
Defined.

(** C5 on the notebook's module: a stage that does not exist, and the
    default stage. *)
Lemma setup_invalid_stage_witness :
  f3_setup (Some "bogus") fresh_world = (Raise ValueError, fresh_world)
  ∧ f3_setup None fresh_world = (Raise ValueError, fresh_world).
Proof.
  split.
  - apply (setup_invalid_stage (open_reader f3_disk) (open_reader f3_disk)
             PairedDataset_new fresh_world (Some "bogus")); discriminate.
  - apply (setup_invalid_stage (open_reader f3_disk) (open_reader f3_disk)
             PairedDataset_new fresh_world None); discriminate.
Defined.

(** C6 on the notebook's module, whose batch size 1 and 8 workers the
    constructor accepts. *)
Lemma loader_before_setup_fails_witness :
  test_dataloader checked_DataLoader fresh_world = (Raise KeyError, fresh_world)
  ∧ ∃ w', f3_setup (Some "fit") fresh_world = (Ok tt, w')
          ∧ test_dataloader checked_DataLoader w' = (Raise KeyError, w')
          ∧ ∃ loader, train_dataloader checked_DataLoader w' = (Ok loader, w').
Proof.
  edestruct (loader_before_setup_fails (open_reader f3_disk) (open_reader f3_disk)
               PairedDataset_new checked_DataLoader (Some 8) train_path_cfg
               annotation_path_cfg (Some transform) 1 None [])
    as [(_ & _ & Hfresh & _) (w' & train & Hrun & Htest & _ & _ & _ & Htrain)].
  - vm_compute. reflexivity.
  - vm_compute. reflexivity.
  - vm_compute. reflexivity.
  - vm_compute. reflexivity.
  - vm_compute. reflexivity.
  - vm_compute. reflexivity.
  - split; [exact Hfresh |]. exists w'. split; [exact Hrun |].
    split; [exact Htest |].
    eexists. apply Htrain. vm_compute. reflexivity.
Defined.

(** C8 on the notebook's module after [setup("fit")]: the train loader
    shuffles, the val loader does not, both with batch size 1 and the 8
    workers of the host. *)
Lemma loaders_configuration_witness :
  let w := run_in (f3_setup (Some "fit")) fresh_world in
  train_dataloader checked_DataLoader w
  = (Ok {| dl_dataset := 0%nat; dl_batch_size := 1;
           dl_num_workers := Some 8; dl_shuffle := true |}, w)
  ∧ val_dataloader checked_DataLoader w
    = (Ok {| dl_dataset := 1%nat; dl_batch_size := 1;
             dl_num_workers := Some 8; dl_shuffle := false |}, w).
Proof.
  intros w.
  destruct (loaders_configuration checked_DataLoader w) as (Htrain & Hval & _ & _).
  split.
  - rewrite (Htrain 0%nat); [reflexivity | vm_compute; reflexivity].
  - rewrite (Hval 1%nat); [reflexivity | vm_compute; reflexivity].
Defined.

(** * Further properties of the transform *)

Section ReflectFacts.
Context {A : Type}.

Lemma reflect_index_lt (n : nat) (i : Z) :
  (0 < n)%nat → (reflect_index n i < n)%nat.
Proof.
  intros Hn. unfold reflect_index.
  destruct (Nat.leb_spec n 1) as [|Hn2]; [lia |].
  pose proof (Z.mod_pos_bound i (2 * (Z.of_nat n - 1))) as Hm.
  destruct (Z.ltb_spec (i mod (2 * (Z.of_nat n - 1))) (Z.of_nat n)); lia.
Qed.

Lemma reflect_index_inside (n i : nat) :
  (i < n)%nat → reflect_index n (Z.of_nat i) = i.
Proof.
  intros Hi. unfold reflect_index.
  destruct (Nat.leb_spec n 1) as [|Hn2]; [lia |].
  rewrite Z.mod_small by lia.
  destruct (Z.ltb_spec (Z.of_nat i) (Z.of_nat n)); lia.
Qed.

Lemma reflect_index_mirror (n i : nat) :
  (0 < n)%nat → (i ≤ 2 * (n - 1))%nat →
  reflect_index n (Z.of_nat i) = mirror n i.
Proof.
  intros Hn Hi. unfold mirror.
  destruct (Nat.ltb_spec i n) as [Hlt | Hge]; [by apply reflect_index_inside |].
  unfold reflect_index.
  destruct (Nat.leb_spec n 1) as [|Hn2]; [lia |].
  destruct (decide (i = 2 * (n - 1))%nat) as [-> | Hne].
  - replace (Z.of_nat (2 * (n - 1))) with (1 * (2 * (Z.of_nat n - 1))) by lia.
    rewrite Z.mod_mul by lia.
    destruct (Z.ltb_spec 0 (Z.of_nat n)); lia.
  - rewrite Z.mod_small by lia.
    destruct (Z.ltb_spec (Z.of_nat i) (Z.of_nat n)); lia.
Qed.

Lemma lookup_pad_axis_reflect {X : Type} (after i : nat) (l : list X) :
  l ≠ [] → (i < length l + after)%nat →
  pad_axis 0 after l !! i = l !! reflect_index (length l) (Z.of_nat i).
Proof.
  intros Hne Hi. destruct l as [|a l]; [done |].
  unfold pad_axis. change (seq 0 0) with (@nil nat). rewrite fmap_nil, app_nil_l.
  remember (length (a :: l)) as n eqn:Hlen.
  assert (0 < n)%nat as Hn by (subst n; simpl; lia).
  destruct (decide (i < n)%nat) as [Hlt | Hge].
  - rewrite lookup_app_l by lia. by rewrite reflect_index_inside.
  - rewrite lookup_app_r by lia. rewrite <- Hlen.
    rewrite list_lookup_fmap, lookup_seq_lt by lia.
    cbn [fmap option_fmap option_map]. rewrite Nat.add_0_l.
    replace (Z.of_nat n + Z.of_nat (i - n)) with (Z.of_nat i) by lia.
    pose proof (reflect_index_lt n (Z.of_nat i) Hn) as Hr.
    destruct (lookup_lt_is_Some_2 (a :: l) (reflect_index n (Z.of_nat i)))
      as [y Hy]; [lia |].
    rewrite Hy. f_equal. by apply nth_lookup_Some.
Qed.

Lemma getitem_pad_items_reflect (n : nat) (s : list nat) (pw : list (nat * nat))
    (l : nest A n) (idx : list nat) :
  conforms n s l = true →
  Forall (fun p => p.1 = 0%nat) pw →
  Forall2 (fun i dp => (0 < dp.1)%nat ∧ (i < dp.1 + dp.2.2)%nat) idx (zip s pw) →
  length pw = n →
  getitem n (pad_items n pw l) idx
  = getitem n l (zip_with (fun d i => reflect_index d (Z.of_nat i)) s idx).
Proof.
  revert s pw l idx. induction n as [|n IH]; intros s pw l idx Hc Hpw Hidx Hlen.
  - destruct pw; [| done]. destruct s; [| done]. by inversion Hidx.
  - destruct pw as [|[before after] pw]; [done |].
    destruct s as [|d s]; [done |].
    apply conforms_cons in Hc as [Hd Hall].
    apply Forall_cons in Hpw as [Hb Hpw]. simpl in Hb. subst before.
    inversion Hidx as [|i dp idx' rest [Hpos Hi] Hrest]; subst. simpl in Hpos, Hi.
    change (pad_items (S n) ((0%nat, after) :: pw) l)
      with (pad_items n pw <$> pad_axis 0 after l).
    change (zip_with (fun d i => reflect_index d (Z.of_nat i)) (length l :: s) (i :: idx'))
      with (reflect_index (length l) (Z.of_nat i)
              :: zip_with (fun d i => reflect_index d (Z.of_nat i)) s idx').
    rewrite !getitem_cons, list_lookup_fmap.
    rewrite lookup_pad_axis_reflect;
      [| intros Hnil; rewrite Hnil in Hpos; by inversion Hpos | done].
    destruct (_ !! reflect_index _ _) as [y|] eqn:Hy; simpl; [| done].
    apply IH; [| done | done | simpl in Hlen; lia].
    rewrite Forall_forall in Hall. apply Hall, list_elem_of_lookup. eauto.
Qed.

Lemma nth_fmap {X Y : Type} (f : X → Y) (l : list X) (d : X) (i : nat) :
  nth i (f <$> l) (f d) = f (nth i l d).
Proof. revert i. induction l as [|y l IH]; intros [|i]; simpl; auto. Qed.

Lemma pad_axis_cons {X : Type} (before after : nat) (a : X) (l : list X) :
  pad_axis before after (a :: l)
  = ((fun k => nth (reflect_index (length (a :: l)) (Z.of_nat k - Z.of_nat before))
                   (a :: l) a) <$> seq 0 before)
    ++ (a :: l)
    ++ ((fun k => nth (reflect_index (length (a :: l))
                         (Z.of_nat (length (a :: l)) + Z.of_nat k))
                      (a :: l) a) <$> seq 0 after).
Proof. reflexivity. Qed.

Lemma pad_axis_fmap {X Y : Type} (f : X → Y) (before after : nat) (l : list X) :
  pad_axis before after (f <$> l) = f <$> pad_axis before after l.
Proof.
  destruct l as [|a l]; [done |].
  rewrite fmap_cons, !pad_axis_cons, <- fmap_cons, !fmap_app, <- !list_fmap_compose.
  rewrite !length_fmap.
  f_equal; [| f_equal]; apply list_fmap_ext; intros k x _;
    apply (nth_fmap f (a :: l) a).
Qed.
End ReflectFacts.

Section PaddingMore.
Context {A F : Type} (float : A → F).

Lemma Padding_call_ok_inv (self : Padding) (x : ndarray A) (out : ndarray F) (h w : nat) :
  well_formed x →
  take 2 (shape x) = [h; w] →
  Padding_call float self x = Ok out →
  ¬ extends_empty self h w ∧ (ndim x = 2 ∨ ndim x = 3)%nat.
Proof.
  intros Hwf Htake Hcall. split.
  - intros He. by rewrite (Padding_call_empty_axis float self x h w) in Hcall.
  - destruct (decide (3 < ndim x)%nat) as [Hhigh | Hlow].
    + rewrite Padding_call_high_rank in Hcall; [done | | done].
      by rewrite (well_formed_ndim x Hwf).
    + rewrite (well_formed_ndim x Hwf) in *.
      destruct (shape x) as [|? [|? ?]]; simpl in *; try done. lia.
Qed.

Lemma extends_empty_axis_false_pos (h w ph pw i : nat) (rest : list nat)
    (prest : list (nat * nat)) :
  extends_empty_axis (h :: w :: rest) ((0%nat, ph) :: (0%nat, pw) :: prest) = false →
  ((i < h + ph)%nat → (0 < h)%nat) ∧ ((i < w + pw)%nat → (0 < w)%nat).
Proof.
  unfold extends_empty_axis. simpl. intros H.
  apply orb_false_iff in H as [Hh H]. apply orb_false_iff in H as [Hw _].
  split; intros Hi.
  - destruct h; [| lia]. simpl in Hh. apply negb_false_iff, Nat.eqb_eq in Hh. lia.
  - destruct w; [| lia]. simpl in Hw. apply negb_false_iff, Nat.eqb_eq in Hw. lia.
Qed.

(** Each item of the result is the converted input item at the reflected
    position. *)
Lemma Padding_call_content (self : Padding) (x : ndarray A) (out : ndarray F) :
  well_formed x →
  Padding_call float self x = Ok out →
  (∀ h w i j, shape x = [h; w] →
     (i < h + pad_amount (target_h_size self) h)%nat →
     (j < w + pad_amount (target_w_size self) w)%nat →
     ∃ v, at_index x [reflect_index h (Z.of_nat i); reflect_index w (Z.of_nat j)] = Some v
          ∧ at_index out [0%nat; i; j] = Some (float v))
  ∧ (∀ h w c i j k, shape x = [h; w; c] →
       (i < h + pad_amount (target_h_size self) h)%nat →
       (j < w + pad_amount (target_w_size self) w)%nat →
       (k < c)%nat →
       ∃ v, at_index x [reflect_index h (Z.of_nat i); reflect_index w (Z.of_nat j); k]
            = Some v
            ∧ at_index out [k; i; j] = Some (float v)).
Proof.
  intros Hwf Hcall. split.
  - intros h w i j Hshape Hi Hj.
    assert (ndim x = 2%nat) as Hn by (by rewrite (well_formed_ndim x Hwf), Hshape).
    destruct (well_formed_2d x h w Hwf Hn) as (rows & -> & Hc); [by rewrite Hshape |].
    rewrite Padding_call_2d in Hcall.
    destruct (extends_empty_axis _ _) eqn:Hext; [discriminate |].
    apply Ok_inj in Hcall. subst out.
    remember (pad_amount (target_h_size self) h) as ph eqn:Hph.
    remember (pad_amount (target_w_size self) w) as pw eqn:Hpw.
    destruct (extends_empty_axis_false_pos h w ph pw i [] [] Hext) as [Hh _].
    destruct (extends_empty_axis_false_pos h w ph pw j [] [] Hext) as [_ Hw].
    specialize (Hh Hi). specialize (Hw Hj).
    destruct (getitem_in_range 2 [h; w] rows
                [reflect_index h (Z.of_nat i); reflect_index w (Z.of_nat j)] Hc)
      as [v Hv].
    { repeat constructor; by apply reflect_index_lt. }
    exists v. split; [exact Hv |].
    unfold at_index. cbn [ndim items].
    pose proof (conforms_pad_items 2 [h; w] [(0%nat, ph); (0%nat, pw)] rows
                  eq_refl Hext Hc) as Hpad.
    apply (conforms_expand_items 2 2 [(h + ph)%nat; (w + pw)%nat]) in Hpad;
      [| lia | done].
    apply (conforms_map_items float) in Hpad.
    rewrite (getitem_transpose (h + ph) (w + pw) 1 _ 0 i j Hpad) by lia.
    rewrite getitem_map_items.
    rewrite (getitem_expand_items_last 2 _ [i; j]) by done.
    rewrite (getitem_pad_items_reflect 2 [h; w] _ rows [i; j] Hc);
      [| repeat constructor | repeat constructor; simpl; lia | done].
    cbn [zip_with]. by rewrite Hv.
  - intros h w c i j k Hshape Hi Hj Hk.
    assert (ndim x = 3%nat) as Hn by (by rewrite (well_formed_ndim x Hwf), Hshape).
    destruct (well_formed_3d x h w Hwf Hn) as (c' & cells & -> & Hc);
      [by rewrite Hshape |].
    apply (f_equal (fun s => s !! 2%nat)) in Hshape. simpl in Hshape.
    injection Hshape as ->.
    rewrite Padding_call_3d in Hcall.
    destruct (extends_empty_axis _ _) eqn:Hext; [discriminate |].
    apply Ok_inj in Hcall. subst out.
    remember (pad_amount (target_h_size self) h) as ph eqn:Hph.
    remember (pad_amount (target_w_size self) w) as pw eqn:Hpw.
    destruct (extends_empty_axis_false_pos h w ph pw i [c] [(0%nat, 0%nat)] Hext)
      as [Hh _].
    destruct (extends_empty_axis_false_pos h w ph pw j [c] [(0%nat, 0%nat)] Hext)
      as [_ Hw].
    specialize (Hh Hi). specialize (Hw Hj).
    destruct (getitem_in_range 3 [h; w; c] cells
                [reflect_index h (Z.of_nat i); reflect_index w (Z.of_nat j); k] Hc)
      as [v Hv].
    { repeat constructor; try done; by apply reflect_index_lt. }
    exists v. split; [exact Hv |].
    unfold at_index. cbn [ndim items].
    pose proof (conforms_pad_items 3 [h; w; c]
                  [(0%nat, ph); (0%nat, pw); (0%nat, 0%nat)] cells eq_refl Hext Hc)
      as Hpad.
    unfold padded_shape in Hpad. simpl zip_with in Hpad.
    rewrite Nat.add_0_r in Hpad.
    apply (conforms_map_items float) in Hpad.
    rewrite (getitem_transpose (h + ph) (w + pw) c _ k i j Hpad) by done.
    rewrite getitem_map_items.
    rewrite (getitem_pad_items_reflect 3 [h; w; c] _ cells [i; j; k] Hc);
      [| repeat constructor | repeat constructor; simpl; lia | done].
    cbn [zip_with]. rewrite (reflect_index_inside c k Hk). by rewrite Hv.
Qed.
End PaddingMore.

Lemma pad_expand_row {A : Type} (pw : nat) (row : list A) :
  pad_items 2 [(0%nat, pw); (0%nat, 0%nat)] (expand_items 1 1 row)
  = expand_items 1 1 (pad_items 1 [(0%nat, pw)] row).
Proof.
  change (pad_items 1 [(0%nat, 0%nat)] <$> pad_axis 0 pw ((fun a => [a]) <$> row)
          = (fun a => [a]) <$> ((fun a : A => a) <$> pad_axis 0 pw row)).
  rewrite pad_axis_fmap, <- !list_fmap_compose.
  apply list_fmap_ext. intros k a _. reflexivity.
Qed.

Lemma pad_expand_commute {A : Type} (ph pw : nat) (rows : list (list A)) :
  pad_items 3 [(0%nat, ph); (0%nat, pw); (0%nat, 0%nat)] (expand_items 2 2 rows)
  = expand_items 2 2 (pad_items 2 [(0%nat, ph); (0%nat, pw)] rows).
Proof.
  change (pad_items 2 [(0%nat, pw); (0%nat, 0%nat)]
            <$> pad_axis 0 ph (expand_items 1 1 <$> rows)
          = expand_items 1 1 <$> (pad_items 1 [(0%nat, pw)] <$> pad_axis 0 ph rows)).
  rewrite pad_axis_fmap, <- !list_fmap_compose.
  apply list_fmap_ext. intros k row _. apply pad_expand_row.
Qed.

Section PaddingExtras.
Context {A F : Type} (float : A → F).

(** X1.  The two spatial axes are treated independently: whenever the call
    returns on a 2-dimensional or 3-dimensional input of spatial size
    (h, w), the result is well formed, channel first, and each spatial
    extent is the larger of the input extent and the target, so an axis
    below the target is padded while the other one, above it, is left as
    it is. *)
Theorem Padding_call_extent_is_max (self : Padding) (x : ndarray A) (out : ndarray F)
    (h w : nat) :
  well_formed x →
  take 2 (shape x) = [h; w] →
  Padding_call float self x = Ok out →
  well_formed out
  ∧ shape out = [channels x;
                 Nat.max h (Z.to_nat (target_h_size self));
                 Nat.max w (Z.to_nat (target_w_size self))].
Proof.
  intros Hwf Htake Hcall.
  destruct (Padding_call_ok_inv float self x out h w Hwf Htake Hcall) as [Hne Hrank].
  destruct (Padding_call_returns float self x h w Hwf Hrank Htake Hne)
    as (out' & Hcall' & Hout & Hshape).
  rewrite Hcall in Hcall'. apply Ok_inj in Hcall'. subst out'.
  split; [done |]. rewrite Hshape. unfold pad_amount. repeat f_equal; lia.
Qed.

(** X2.  The result holds nothing but converted input items, each at the
    position reflection assigns to it: [out[0, i, j]] is
    [float(x[r(h, i), r(w, j)])] for a 2-dimensional input and
    [out[c, i, j]] is [float(x[r(h, i), r(w, j), c])] for a 3-dimensional
    one, over the whole result, [r] being [reflect_index]. *)
Theorem Padding_call_reflects_input (self : Padding) (x : ndarray A) (out : ndarray F) :
  well_formed x →
  Padding_call float self x = Ok out →
  (∀ h w i j, shape x = [h; w] →
     (i < h + pad_amount (target_h_size self) h)%nat →
     (j < w + pad_amount (target_w_size self) w)%nat →
     ∃ v, at_index x [reflect_index h (Z.of_nat i); reflect_index w (Z.of_nat j)] = Some v
          ∧ at_index out [0%nat; i; j] = Some (float v))
  ∧ (∀ h w c i j k, shape x = [h; w; c] →
       (i < h + pad_amount (target_h_size self) h)%nat →
       (j < w + pad_amount (target_w_size self) w)%nat →
       (k < c)%nat →
       ∃ v, at_index x [reflect_index h (Z.of_nat i); reflect_index w (Z.of_nat j); k]
            = Some v
            ∧ at_index out [k; i; j] = Some (float v)).
Proof. apply Padding_call_content. Qed.

(** X3.  When neither pad amount exceeds its axis's size minus one, a
    2-dimensional input is reflected once: row [h + k] of the result is
    row [h - 2 - k] of the input and column [w + k] is column [w - 2 - k],
    that is [out[0, i, j] = float(x[mirror h i, mirror w j])]. *)
Theorem Padding_call_mirrors_once (self : Padding) (x : ndarray A) (out : ndarray F)
    (h w i j : nat) :
  well_formed x →
  shape x = [h; w] →
  Padding_call float self x = Ok out →
  target_h_size self - Z.of_nat h ≤ Z.of_nat h - 1 →
  target_w_size self - Z.of_nat w ≤ Z.of_nat w - 1 →
  (i < h + pad_amount (target_h_size self) h)%nat →
  (j < w + pad_amount (target_w_size self) w)%nat →
  ∃ v, at_index x [mirror h i; mirror w j] = Some v
       ∧ at_index out [0%nat; i; j] = Some (float v).
Proof.
  intros Hwf Hshape Hcall Hh Hw Hi Hj.
  destruct (Padding_call_content float self x out Hwf Hcall) as [H2d _].
  destruct (H2d h w i j Hshape Hi Hj) as (v & Hv & Hout).
  unfold pad_amount in Hi, Hj.
  rewrite (reflect_index_mirror h i) in Hv by lia.
  rewrite (reflect_index_mirror w j) in Hv by lia.
  by exists v.
Qed.

(** X4.  The two branches of the call agree: a 2-dimensional input gives
    what the same input with a trailing channel axis of size 1 gives. *)
Theorem Padding_call_2d_as_3d (self : Padding) (x x3 : ndarray A) :
  well_formed x →
  ndim x = 2%nat →
  np_expand_dims x 2 = Ok x3 →
  Padding_call float self x = Padding_call float self x3.
Proof.
  intros Hwf Hn Hx3.
  assert (∃ h w, take 2 (shape x) = [h; w]) as (h & w & Htake).
  { rewrite (well_formed_ndim x Hwf) in Hn.
    destruct (shape x) as [|h [|w [|? ?]]]; try done. by exists h, w. }
  destruct (well_formed_2d x h w Hwf Hn Htake) as (rows & -> & Hc).
  unfold np_expand_dims in Hx3. simpl in Hx3. apply Ok_inj in Hx3. subst x3.
  change (Padding_call float self (NdArray 2 [h; w] rows)
          = Padding_call float self
              (NdArray 3 [h; w; 1%nat] (expand_items 2 2 rows))).
  rewrite Padding_call_2d, Padding_call_3d.
  remember (pad_amount (target_h_size self) h) as ph eqn:Hph.
  remember (pad_amount (target_w_size self) w) as pw eqn:Hpw.
  assert (extends_empty_axis [h; w; 1%nat] [(0%nat, ph); (0%nat, pw); (0%nat, 0%nat)]
          = extends_empty_axis [h; w] [(0%nat, ph); (0%nat, pw)]) as ->.
  { unfold extends_empty_axis. simpl. by rewrite !orb_false_r. }
  destruct (extends_empty_axis _ _); [done |].
  by rewrite pad_expand_commute.
Qed.
End PaddingExtras.

(** X1 on the colour sample under [Padding(1, 3)]: the height, above the
    target, stays 2 and the width is padded to 3. *)
Lemma Padding_call_extent_is_max_witness :
  well_formed rgb_2x2_padded ∧ shape rgb_2x2_padded = [3; 2; 3]%nat.
Proof.
  apply (Padding_call_extent_is_max exact_float
           {| target_h_size := 1; target_w_size := 3 |} rgb_2x2 rgb_2x2_padded 2 2).
  - reflexivity.
  - reflexivity.
  - reflexivity.
Defined.

(** X2 on the (2, 3) sample under [Padding(3, 5)]: the bottom-right item
    of the result is the top-left item of the input. *)
Lemma Padding_call_reflects_input_witness :
  at_index gray_2x3 [0; 0]%nat = Some 1
  ∧ at_index gray_2x3_padded [0; 2; 4]%nat = Some (exact_float 1).
Proof.
  destruct (Padding_call_reflects_input exact_float
              {| target_h_size := 3; target_w_size := 5 |} gray_2x3 gray_2x3_padded)
    as [H2d _].
  - reflexivity.
  - reflexivity.
  - destruct (H2d 2%nat 3%nat 2%nat 4%nat) as (v & Hv & Hout).
    + reflexivity.
    + vm_compute. lia.
    + vm_compute. lia.
    + assert (v = 1) as -> by (vm_compute in Hv; congruence).
      split; [reflexivity | exact Hout].
Defined.

(** X3 on the same sample: column 3 of the result is column 1 of the
    input. *)
Lemma Padding_call_mirrors_once_witness :
  at_index gray_2x3 [1; 1]%nat = Some 5
  ∧ at_index gray_2x3_padded [0; 1; 3]%nat = Some (exact_float 5).
Proof.
  destruct (Padding_call_mirrors_once exact_float
              {| target_h_size := 3; target_w_size := 5 |} gray_2x3 gray_2x3_padded
              2 3 1 3)
    as (v & Hv & Hout).
  - reflexivity.
  - reflexivity.
  - reflexivity.
  - simpl. lia.
  - simpl. lia.
  - vm_compute. lia.
  - vm_compute. lia.
  - assert (v = 5) as -> by (vm_compute in Hv; congruence).
    split; [reflexivity | exact Hout].
Defined.

(** X4 on the (2, 3) sample and its (2, 3, 1) form. *)
Lemma Padding_call_2d_as_3d_witness :
  Padding_call exact_float transform gray_2x3
  = Padding_call exact_float transform gray_2x3x1.
Proof.
  apply (Padding_call_2d_as_3d exact_float transform gray_2x3 gray_2x3x1).
  - reflexivity.
  - reflexivity.
  - reflexivity.
Defined.

(** * Further properties of the data module *)

Section DataModuleMore.
Context {Reader Dataset : Type}.
Context (TiffReader PNGReader : Path → result Reader).
Context (SupervisedReconstructionDataset :
           list Reader → option Padding → result Dataset).

Local Abbreviation do_setup :=
  (setup TiffReader PNGReader SupervisedReconstructionDataset).
Local Abbreviation World := (World Dataset).

Lemma world_grown_nil (w : World) :
  {| self := self w; objects := objects w ++ [] |} = w.
Proof. destruct w. simpl. by rewrite app_nil_r. Qed.

Ltac setup_unfold :=
  unfold setup, mbind, M_bind, get_self, call, new, datasets_setitem, raise;
  cbn [self objects].

(** The three ways a [setup] call can end. *)
Lemma setup_outcome (w : World) (stage : option string) :
  (∃ e new, do_setup stage w
            = (Raise e, {| self := self w; objects := objects w ++ new |}))
  ∨ (stage = Some "fit"
     ∧ ∃ d1 d2, do_setup stage w
                = (Ok tt, stored w [d1; d2] "train" (length (objects w))
                            "val" (S (length (objects w)))))
  ∨ ((stage = Some "test" ∨ stage = Some "predict")
     ∧ ∃ d, do_setup stage w
            = (Ok tt, stored w [d] "test" (length (objects w))
                        "predict" (length (objects w)))).
Proof.
  destruct (decide (stage = Some "fit")) as [-> | Hfit].
  - destruct (TiffReader (train_path (self w) // "train")) as [r1 | e] eqn:H1.
    2:{ left. exists e, []. rewrite world_grown_nil. setup_unfold.
        rewrite decide_True by done. by rewrite H1. }
    destruct (PNGReader (annotations_path (self w) // "train")) as [r2 | e] eqn:H2.
    2:{ left. exists e, []. rewrite world_grown_nil. setup_unfold.
        rewrite decide_True by done. by rewrite H1, H2. }
    destruct (SupervisedReconstructionDataset [r1; r2] (transforms (self w)))
      as [d1 | e] eqn:H3.
    2:{ left. exists e, []. rewrite world_grown_nil. setup_unfold.
        rewrite decide_True by done. by rewrite H1, H2, H3. }
    destruct (TiffReader (train_path (self w) // "val")) as [r3 | e] eqn:H4.
    2:{ left. exists e, [d1]. setup_unfold.
        rewrite decide_True by done. rewrite H1, H2, H3. cbn [self objects].
        by rewrite H4. }
    destruct (PNGReader (annotations_path (self w) // "val")) as [r4 | e] eqn:H5.
    2:{ left. exists e, [d1]. setup_unfold.
        rewrite decide_True by done. rewrite H1, H2, H3. cbn [self objects].
        by rewrite H4, H5. }
    destruct (SupervisedReconstructionDataset [r3; r4] (transforms (self w)))
      as [d2 | e] eqn:H6.
    2:{ left. exists e, [d1]. setup_unfold.
        rewrite decide_True by done. rewrite H1, H2, H3. cbn [self objects].
        by rewrite H4, H5, H6. }
    right. left. split; [done |]. exists d1, d2.
    by apply (setup_fit _ _ _ w r1 r2 r3 r4).
  - destruct (decide (stage = Some "test" ∨ stage = Some "predict")) as [Hstage | Hno].
    + assert (∃ name, stage = Some name ∧ (name = "test" ∨ name = "predict"))
        as (name & -> & Hname).
      { destruct Hstage as [-> | ->]; eexists; split; eauto. }
      destruct (TiffReader (train_path (self w) // "test")) as [r1 | e] eqn:H1.
      2:{ left. exists e, []. rewrite world_grown_nil. setup_unfold.
          rewrite decide_False, decide_True by done. by rewrite H1. }
      destruct (PNGReader (annotations_path (self w) // "test")) as [r2 | e] eqn:H2.
      2:{ left. exists e, []. rewrite world_grown_nil. setup_unfold.
          rewrite decide_False, decide_True by done. by rewrite H1, H2. }
      destruct (SupervisedReconstructionDataset [r1; r2] (transforms (self w)))
        as [d | e] eqn:H3.
      2:{ left. exists e, []. rewrite world_grown_nil. setup_unfold.
          rewrite decide_False, decide_True by done. by rewrite H1, H2, H3. }
      right. right. split; [done |]. exists d.
      by apply (setup_test_predict _ _ _ w name r1 r2).
    + left. exists ValueError, []. rewrite world_grown_nil. setup_unfold.
      by rewrite !decide_False.
Qed.
End DataModuleMore.

Section DataModuleInvariants.
Context {Reader Dataset : Type}.
Context (TiffReader PNGReader : Path → result Reader).
Context (SupervisedReconstructionDataset :
           list Reader → option Padding → result Dataset).

Local Abbreviation do_setup :=
  (setup TiffReader PNGReader SupervisedReconstructionDataset).
Local Abbreviation do_setups :=
  (run_setups TiffReader PNGReader SupervisedReconstructionDataset).
Local Abbreviation World := (World Dataset).

Lemma same_config_refl (m : F3DataModule) : same_config m m.
Proof. by repeat split. Qed.

Lemma same_config_trans (m1 m2 m3 : F3DataModule) :
  same_config m1 m2 → same_config m2 m3 → same_config m1 m3.
Proof.
  intros (? & ? & ? & ? & ?) (? & ? & ? & ? & ?). repeat split; congruence.
Qed.

Lemma store_ok_stored (w : World) (new : list Dataset) (k1 k2 : string) (d1 d2 : ref) :
  store_ok w →
  is_Some ((objects w ++ new) !! d1) →
  is_Some ((objects w ++ new) !! d2) →
  store_ok (stored w new k1 d1 k2 d2).
Proof.
  intros Hok H1 H2 key d. unfold stored. cbn [self objects datasets].
  rewrite !lookup_insert. repeat case_decide.
  - by intros [= <-].
  - by intros [= <-].
  - intros Hd. destruct (Hok key d Hd) as [y Hy].
    exists y. by apply lookup_app_l_Some.
Qed.

Lemma store_ok_grown (w : World) (new : list Dataset) :
  store_ok w → store_ok {| self := self w; objects := objects w ++ new |}.
Proof.
  intros Hok key d Hd. cbn [self objects] in *.
  destruct (Hok key d Hd) as [y Hy]. exists y. by apply lookup_app_l_Some.
Qed.

Lemma setup_keeps_store_ok (w : World) (stage : option string) :
  store_ok w → store_ok (do_setup stage w).2.
Proof.
  intros Hok.
  destruct (setup_outcome TiffReader PNGReader SupervisedReconstructionDataset w stage)
    as [(e & new & ->) | [(_ & d1 & d2 & ->) | (_ & d & ->)]]; cbn [snd].
  - by apply store_ok_grown.
  - apply store_ok_stored; [done | |].
    + rewrite <- (Nat.add_0_r (length (objects w))), lookup_new_object. by eexists.
    + rewrite <- (Nat.add_1_r (length (objects w))), lookup_new_object. by eexists.
  - apply store_ok_stored; [done | |];
      rewrite <- (Nat.add_0_r (length (objects w))), lookup_new_object; by eexists.
Qed.

Lemma setup_keeps_paired (w : World) (stage : option string) :
  paired w → paired (do_setup stage w).2.
Proof.
  intros (Hdom & Hpair & Halias).
  destruct (setup_outcome TiffReader PNGReader SupervisedReconstructionDataset w stage)
    as [(e & new & ->) | [(_ & d1 & d2 & ->) | (_ & d & ->)]]; cbn [snd].
  - done.
  - unfold paired, stored. cbn [self datasets]. split; [| split].
    + rewrite !dom_insert_L. unfold stage_keys in *. clear Hpair Halias. set_solver.
    + rewrite !dom_insert_L. clear Hdom Hpair Halias. set_solver.
    + by rewrite !lookup_insert_ne.
  - unfold paired, stored. cbn [self datasets]. split; [| split].
    + rewrite !dom_insert_L. unfold stage_keys in *. clear Hpair Halias. set_solver.
    + rewrite !elem_of_dom, !lookup_insert_ne by done.
      by rewrite <- !elem_of_dom.
    + by rewrite lookup_insert_ne, !lookup_insert_eq.
Qed.

Lemma setup_same_config (w : World) (stage : option string) :
  same_config (self w) (self (do_setup stage w).2).
Proof.
  destruct (setup_outcome TiffReader PNGReader SupervisedReconstructionDataset w stage)
    as [(e & new & ->) | [(_ & d1 & d2 & ->) | (_ & d & ->)]]; cbn [snd];
    by repeat split.
Qed.

Lemma run_setups_invariants (stages : list (option string)) (w : World) :
  store_ok w → paired w →
  store_ok (do_setups stages w)
  ∧ paired (do_setups stages w)
  ∧ same_config (self w) (self (do_setups stages w)).
Proof.
  revert w. induction stages as [|stage stages IH]; intros w Hok Hp.
  - split; [done |]. split; [done |]. apply same_config_refl.
  - unfold run_setups. cbn [foldl]. fold (do_setups stages (do_setup stage w).2).
    destruct (IH (do_setup stage w).2) as (Hok' & Hp' & Hcfg').
    + by apply setup_keeps_store_ok.
    + by apply setup_keeps_paired.
    + split; [done |]. split; [done |].
      eapply same_config_trans; [apply setup_same_config | exact Hcfg'].
Qed.

Lemma fresh_invariants (m : F3DataModule) (objs : list Dataset) :
  datasets m = ∅ →
  store_ok {| self := m; objects := objs |} ∧ paired {| self := m; objects := objs |}.
Proof.
  intros Hempty. split.
  - intros key d. cbn [self]. by rewrite Hempty, lookup_empty.
  - unfold paired. cbn [self]. rewrite Hempty, dom_empty_L, !lookup_empty.
    split; [set_solver |]. split; [set_solver | done].
Qed.
End DataModuleInvariants.

Section DataModuleExtras.
Context {Reader Dataset : Type}.
Context (TiffReader PNGReader : Path → result Reader).
Context (SupervisedReconstructionDataset :
           list Reader → option Padding → result Dataset).
Context {Loader : Type} (DataLoader : LoaderArgs → result Loader).

Local Abbreviation do_setup :=
  (setup TiffReader PNGReader SupervisedReconstructionDataset).
Local Abbreviation do_setups :=
  (run_setups TiffReader PNGReader SupervisedReconstructionDataset).
Local Abbreviation World := (World Dataset).

(** X5.  A [setup] call that raises, whatever the exception and whichever
    constructor raised it, leaves the module object as it was: no key is
    set, not even "train" when the train dataset had been built and the
    val split failed.  The store keeps what it had. *)
Theorem setup_failure_is_atomic (w w' : World) (stage : option string) (e : exn) :
  do_setup stage w = (Raise e, w') →
  self w' = self w ∧ objects w `prefix_of` objects w'.
Proof.
  intros Hrun.
  destruct (setup_outcome TiffReader PNGReader SupervisedReconstructionDataset w stage)
    as [(e' & new & Hout) | [(_ & d1 & d2 & Hout) | (_ & d & Hout)]];
    rewrite Hout in Hrun; [| discriminate | discriminate].
  injection Hrun as _ <-. split; [done |]. by exists new.
Qed.

(** X6.  Whatever its outcome, a [setup] call changes nothing of the
    module but [self.datasets], removes no key from it, writes no key
    other than train, val, test and predict, and leaves every object of
    the store in place. *)
Theorem setup_only_adds (w : World) (stage : option string) :
  let w' := (do_setup stage w).2 in
  same_config (self w) (self w')
  ∧ dom (datasets (self w)) ⊆ dom (datasets (self w'))
  ∧ (∀ key, key ∉ stage_keys → datasets (self w') !! key = datasets (self w) !! key)
  ∧ objects w `prefix_of` objects w'.
Proof.
  intros w'. subst w'.
  split; [apply setup_same_config |].
  destruct (setup_outcome TiffReader PNGReader SupervisedReconstructionDataset w stage)
    as [(e & new & ->) | [(_ & d1 & d2 & ->) | (_ & d & ->)]]; cbn [snd].
  - split; [done |]. split; [done |]. by exists new.
  - unfold stored. cbn [self objects datasets].
    split; [rewrite !dom_insert_L; set_solver |].
    split; [| by eexists].
    intros key Hkey. unfold stage_keys in Hkey.
    rewrite !lookup_insert_ne; [done | set_solver ..].
  - unfold stored. cbn [self objects datasets].
    split; [rewrite !dom_insert_L; set_solver |].
    split; [| by eexists].
    intros key Hkey. unfold stage_keys in Hkey.
    rewrite !lookup_insert_ne; [done | set_solver ..].
Qed.

(** X7.  In every state a freshly constructed module reaches through
    [setup] calls, failed ones included, train is present exactly when val
    is, test and predict hold the same reference (both absent or one
    object), no other key exists, and every key refers to an object of
    the store. *)
Theorem setup_calls_keep_pairs (cpu_count : option Z) (tp ap : string)
    (tr : option Padding) (bs : Z) (nw : option Z) (objs : list Dataset)
    (stages : list (option string)) :
  let w := do_setups stages
             {| self := F3DataModule_init cpu_count tp ap tr bs nw; objects := objs |} in
  dom (datasets (self w)) ⊆ stage_keys
  ∧ ("train" ∈ dom (datasets (self w)) ↔ "val" ∈ dom (datasets (self w)))
  ∧ datasets (self w) !! "test" = datasets (self w) !! "predict"
  ∧ store_ok w.
Proof.
  intros w. subst w.
  destruct (fresh_invariants (F3DataModule_init cpu_count tp ap tr bs nw) objs eq_refl)
    as [Hok Hp].
  destruct (run_setups_invariants TiffReader PNGReader SupervisedReconstructionDataset
              stages _ Hok Hp) as (Hok' & (Hdom & Hpair & Halias) & _).
  done.
Qed.

(** X8.  A loader that an accessor returns after any series of [setup]
    calls on a freshly constructed module was constructed over a dataset
    that exists, with the batch size given to [__init__] and with the
    worker count given to it or, when none was given (an explicit 0 is
    one), the host's [os.cpu_count()]; the accessor changes no state. *)
Theorem loader_after_setups (cpu_count : option Z) (tp ap : string)
    (tr : option Padding) (bs : Z) (nw : option Z) (objs : list Dataset)
    (stages : list (option string)) (acc : M Dataset Loader)
    (loader : Loader) (w'' : World) :
  let w := do_setups stages
             {| self := F3DataModule_init cpu_count tp ap tr bs nw; objects := objs |} in
  acc = train_dataloader DataLoader ∨ acc = val_dataloader DataLoader
  ∨ acc = test_dataloader DataLoader ∨ acc = predict_dataloader DataLoader →
  acc w = (Ok loader, w'') →
  w'' = w
  ∧ ∃ args, DataLoader args = Ok loader
            ∧ is_Some (objects w !! dl_dataset args)
            ∧ dl_batch_size args = bs
            ∧ dl_num_workers args
              = match nw with Some n => Some n | None => cpu_count end.
Proof.
  intros w Hacc Hrun. subst w.
  destruct (fresh_invariants (F3DataModule_init cpu_count tp ap tr bs nw) objs eq_refl)
    as [Hok Hp].
  destruct (run_setups_invariants TiffReader PNGReader SupervisedReconstructionDataset
              stages _ Hok Hp) as (Hok' & _ & (_ & _ & _ & Hbs & Hnw)).
  cbn [self F3DataModule_init batch_size num_workers] in Hbs, Hnw.
  set (w := do_setups stages _) in *.
  assert (∃ key shuffle,
            acc w = (d ← datasets_getitem key;
                     call (DataLoader (loader_args (self w) d shuffle))) w)
    as (key & shuffle & Hkey).
  { unfold train_dataloader, val_dataloader, test_dataloader, predict_dataloader in Hacc.
    destruct Hacc as [-> | [-> | [-> | ->]]];
      [exists "train", true | exists "val", false
       | exists "test", false | exists "predict", false]; reflexivity. }
  rewrite Hkey in Hrun. clear Hkey.
  unfold mbind, M_bind, datasets_getitem, call in Hrun.
  destruct (datasets (self w) !! key) as [d|] eqn:Hd; [| discriminate].
  destruct (DataLoader (loader_args (self w) d shuffle)) as [l|e] eqn:Hl;
    [| discriminate].
  injection Hrun as <- <-. split; [done |].
  exists (loader_args (self w) d shuffle). cbn [loader_args dl_dataset dl_batch_size
                                                 dl_num_workers].
  split; [done |]. split; [by apply (Hok' key) |]. split; congruence.
Qed.


(** X10.  [setup("fit")] followed by [setup("test")] or
    [setup("predict")] on a freshly constructed module leaves all four
    keys set: train and val still refer to the datasets of the fit call,
    test and predict to the test-split dataset, and each of the four
    accessors finds its dataset and returns what the [DataLoader]
    constructor returns for it, a loader whenever the constructor accepts
    the module's batch size and worker count. *)
Theorem setup_fit_then_test (cpu_count : option Z) (tp ap : string)
    (tr : option Padding) (bs : Z) (nw : option Z) (objs : list Dataset)
    (stage : string) (r1 r2 r3 r4 r5 r6 : Reader) (d1 d2 d3 : Dataset) :
  let w : World :=
    {| self := F3DataModule_init cpu_count tp ap tr bs nw; objects := objs |} in
  stage = "test" ∨ stage = "predict" →
  TiffReader (tp // "train") = Ok r1 →
  PNGReader (ap // "train") = Ok r2 →
  SupervisedReconstructionDataset [r1; r2] tr = Ok d1 →
  TiffReader (tp // "val") = Ok r3 →
  PNGReader (ap // "val") = Ok r4 →
  SupervisedReconstructionDataset [r3; r4] tr = Ok d2 →
  TiffReader (tp // "test") = Ok r5 →
  PNGReader (ap // "test") = Ok r6 →
  SupervisedReconstructionDataset [r5; r6] tr = Ok d3 →
  ∃ w1 w2 (train val test : ref),
    do_setup (Some "fit") w = (Ok tt, w1)
    ∧ do_setup (Some stage) w1 = (Ok tt, w2)
    ∧ dom (datasets (self w2)) = stage_keys
    ∧ dataset_of w2 "train" = Some d1 ∧ dataset_of w2 "val" = Some d2
    ∧ dataset_of w2 "test" = Some d3 ∧ dataset_of w2 "predict" = Some d3
    ∧ objects w2 !! train = Some d1 ∧ objects w2 !! val = Some d2
    ∧ objects w2 !! test = Some d3
    ∧ train_dataloader DataLoader w2
      = (DataLoader (loader_args (self w) train true), w2)
    ∧ val_dataloader DataLoader w2
      = (DataLoader (loader_args (self w) val false), w2)
    ∧ test_dataloader DataLoader w2
      = (DataLoader (loader_args (self w) test false), w2)
    ∧ predict_dataloader DataLoader w2
      = (DataLoader (loader_args (self w) test false), w2).
Proof.
  intros w Hstage H1 H2 H3 H4 H5 H6 H7 H8 H9.
  set (n := length objs).
  set (w1 := stored w [d1; d2] "train" n "val" (S n)).
  exists w1, (stored w1 [d3] "test" (length (objects w1)) "predict" (length (objects w1))),
    n, (S n), (S (S n)).
  split; [by apply (setup_fit _ _ _ w r1 r2 r3 r4) |].
  split; [by apply (setup_test_predict _ _ _ w1 stage r5 r6) |].
  assert (length (objects w1) = S (S n)) as Hlen.
  { subst w1 w. unfold stored. cbn [objects]. rewrite length_app. simpl. lia. }
  rewrite Hlen.
  unfold dataset_of, train_dataloader, val_dataloader, test_dataloader,
    predict_dataloader, mbind, M_bind, get_self, datasets_getitem, call, loader_args.
  subst w1 w. unfold stored. cbn [self objects datasets F3DataModule_init
                                   batch_size num_workers].
  rewrite !(lookup_insert_ne _ "predict" "test"), !(lookup_insert_ne _ "predict" "train"),
    !(lookup_insert_ne _ "predict" "val"), !(lookup_insert_ne _ "test" "train"),
    !(lookup_insert_ne _ "test" "val"), !(lookup_insert_ne _ "val" "train"),
    !lookup_insert_eq by done.
  split; [rewrite !dom_insert_L, dom_empty_L; unfold stage_keys; set_solver |].
  assert (((objs ++ [d1; d2]) ++ [d3]) !! n = Some d1) as L1.
  { rewrite <- app_assoc.
    by rewrite <- (Nat.add_0_r n), (lookup_new_object objs). }
  assert (((objs ++ [d1; d2]) ++ [d3]) !! S n = Some d2) as L2.
  { rewrite <- app_assoc.
    by rewrite <- (Nat.add_1_r n), (lookup_new_object objs). }
  assert (((objs ++ [d1; d2]) ++ [d3]) !! S (S n) = Some d3) as L3.
  { rewrite <- app_assoc.
    replace (S (S n)) with (n + 2)%nat by lia.
    by rewrite (lookup_new_object objs). }
  repeat split; done.
Qed.

(** X11.  After [setup("test")] or [setup("predict")] alone on a freshly
    constructed module the test and the predict accessor call the
    [DataLoader] constructor with the same arguments (the test-split
    dataset, the module's batch size and worker count, [shuffle=False]),
    so the two loaders have the same configuration, while the train and
    val accessors raise [KeyError]. *)
Theorem setup_test_loaders_agree (cpu_count : option Z) (tp ap : string)
    (tr : option Padding) (bs : Z) (nw : option Z) (objs : list Dataset)
    (stage : string) (r1 r2 : Reader) (d : Dataset) :
  let w : World :=
    {| self := F3DataModule_init cpu_count tp ap tr bs nw; objects := objs |} in
  stage = "test" ∨ stage = "predict" →
  TiffReader (tp // "test") = Ok r1 →
  PNGReader (ap // "test") = Ok r2 →
  SupervisedReconstructionDataset [r1; r2] tr = Ok d →
  ∃ w' (test : ref),
    do_setup (Some stage) w = (Ok tt, w')
    ∧ objects w' !! test = Some d
    ∧ test_dataloader DataLoader w'
      = (DataLoader (loader_args (self w) test false), w')
    ∧ predict_dataloader DataLoader w'
      = (DataLoader (loader_args (self w) test false), w')
    ∧ train_dataloader DataLoader w' = (Raise KeyError, w')
    ∧ val_dataloader DataLoader w' = (Raise KeyError, w').
Proof.
  intros w Hstage H1 H2 H3.
  eexists _, (length objs).
  split; [by apply (setup_test_predict _ _ _ w stage r1 r2 d) |].
  unfold train_dataloader, val_dataloader, test_dataloader,
    predict_dataloader, mbind, M_bind, get_self, datasets_getitem, call, loader_args.
  subst w. unfold stored. cbn [self objects datasets F3DataModule_init
                                batch_size num_workers].
  rewrite !(lookup_insert_ne _ "predict" "test"), !(lookup_insert_ne _ "predict" "train"),
    !(lookup_insert_ne _ "predict" "val"), !(lookup_insert_ne _ "test" "train"),
    !(lookup_insert_ne _ "test" "val"), !lookup_insert_eq, !lookup_empty by done.
  split; [| done].
  by rewrite <- (Nat.add_0_r (length objs)), lookup_new_object.
Qed.
End DataModuleExtras.

(** * Further properties of the data module on the notebook's configuration *)

(** X5 on a disk without the val split: [setup("fit")] builds the train
    dataset, fails on the val reader, and the module is as constructed. *)
Lemma setup_failure_is_atomic_witness :
  ∃ w', setup (open_reader disk_without_val) (open_reader disk_without_val)
          PairedDataset_new (Some "fit") fresh_world
        = (Raise FileNotFoundError, w')
        ∧ self w' = data_module.
Proof.
  assert (∃ w', setup (open_reader disk_without_val) (open_reader disk_without_val)
                  PairedDataset_new (Some "fit") fresh_world
                = (Raise FileNotFoundError, w')) as [w' Hrun].
  { eexists. vm_compute. reflexivity. }
  exists w'. split; [exact Hrun |].
  apply (setup_failure_is_atomic (open_reader disk_without_val)
           (open_reader disk_without_val) PairedDataset_new fresh_world w'
           (Some "fit") FileNotFoundError Hrun).
Defined.

(** X8 on the notebook's module after a fit, a failed and a predict
    call: the predict loader was built with batch size 1 and the 8
    workers of the host. *)
Lemma loader_after_setups_witness :
  ∃ loader w,
    predict_dataloader checked_DataLoader
      (run_setups (open_reader f3_disk) (open_reader f3_disk) PairedDataset_new
         [Some "fit"; Some "bogus"; Some "predict"] fresh_world)
    = (Ok loader, w)
    ∧ ∃ args, checked_DataLoader args = Ok loader
              ∧ dl_batch_size args = 1
              ∧ dl_num_workers args = Some 8.
Proof.
  edestruct (loader_after_setups (open_reader f3_disk) (open_reader f3_disk)
               PairedDataset_new checked_DataLoader (Some 8) train_path_cfg
               annotation_path_cfg (Some transform) 1 None []
               [Some "fit"; Some "bogus"; Some "predict"]
               (predict_dataloader checked_DataLoader))
    as (_ & args & Hargs & _ & Hbs & Hnw).
  - right. right. right. reflexivity.
  - vm_compute. reflexivity.
  - eexists _, _. split; [vm_compute; reflexivity |].
    exists args. split; [exact Hargs |]. split; [exact Hbs | exact Hnw].
Defined.


(** X10 on the notebook's module, whose configuration the constructor
    accepts: the train loader is returned. *)
Lemma setup_fit_then_test_witness :
  ∃ w1 w2, f3_setup (Some "fit") fresh_world = (Ok tt, w1)
           ∧ f3_setup (Some "test") w1 = (Ok tt, w2)
           ∧ dom (datasets (self w2)) = stage_keys
           ∧ ∃ l, train_dataloader checked_DataLoader w2 = (Ok l, w2).
Proof.
  edestruct (setup_fit_then_test (open_reader f3_disk) (open_reader f3_disk)
               PairedDataset_new checked_DataLoader (Some 8) train_path_cfg
               annotation_path_cfg (Some transform) 1 None [] "test")
    as (w1 & w2 & train & val & test & Hrun1 & Hrun2 & Hdom & _ & _ & _ & _
        & _ & _ & _ & Htrain & _).
  - left. reflexivity.
  - vm_compute. reflexivity.
  - vm_compute. reflexivity.
  - vm_compute. reflexivity.
  - vm_compute. reflexivity.
  - vm_compute. reflexivity.
  - vm_compute. reflexivity.
  - vm_compute. reflexivity.
  - vm_compute. reflexivity.
  - vm_compute. reflexivity.
  - exists w1, w2. split; [exact Hrun1 |]. split; [exact Hrun2 |].
    split; [exact Hdom |]. rewrite Htrain. by eexists.
Defined.

(** X11 on the notebook's module after [setup("predict")]. *)
Lemma setup_test_loaders_agree_witness :
  ∃ w', f3_setup (Some "predict") fresh_world = (Ok tt, w')
        ∧ test_dataloader checked_DataLoader w'
          = predict_dataloader checked_DataLoader w'
        ∧ train_dataloader checked_DataLoader w' = (Raise KeyError, w').
Proof.
  edestruct (setup_test_loaders_agree (open_reader f3_disk) (open_reader f3_disk)
               PairedDataset_new checked_DataLoader (Some 8) train_path_cfg
               annotation_path_cfg (Some transform) 1 None [] "predict")
    as (w' & test & Hrun & _ & Htest & Hpredict & Htrain & _).
  - right. reflexivity.
  - vm_compute. reflexivity.
  - vm_compute. reflexivity.
  - vm_compute. reflexivity.
  - exists w'. split; [exact Hrun |]. split; [| exact Htrain].
    by rewrite Htest, Hpredict.
Defined.
